(** * Build-dispatch core of the CI bridge: a shallow embedding

    The development follows [central/buildbot.py] and [central/utils.py]:
    the wire encoder ([make_netstring], [make_build_request]), the job
    submitter ([send_build_request]), the two queue workers
    ([PullRequestBuilder.run], [BuildStatusCollector.run]) and the
    supervisor ([DaemonThread.run]).

    Python values are modelled as follows.
    - [str] is a list of Unicode code points ([pystr]); [bytes] is a list
      of [byte].
    - [int] is [Z].
    - Values decoded from JSON are the inductive [json]; a nested [dict]
      keeps its items as an association list in insertion order, the
      top-level [properties] mapping of a build result is a [gmap].
    - Exceptions are the inductive [exn]; a computation that can raise
      returns [res]; a computation that also touches the outside world
      (event bus, log, file system, network, entropy) lives in [M]. *)

From Stdlib Require Import ZArith NArith List Ascii String Strings.Byte.
From Stdlib Require Import DecimalN DecimalZ Lia.
From stdpp Require Import base option list gmap.

Local Open Scope N_scope.

(** ** Strings and bytes *)

Abbreviation pystr := (list N).
Abbreviation bytes := (list byte).

(** A Python string literal, written as a Rocq string. *)
Definition lit (s : string) : pystr := map N_of_ascii (list_ascii_of_string s).

Definition colon : byte := ":"%byte.
Definition comma : byte := ","%byte.

(** ** Exceptions *)

Inductive exn : Set :=
| KeyError | TypeError | IndexError | AttributeError
| UnicodeEncodeError | OSError | RequestException | ValueError
| RuntimeError
| SystemExit | KeyboardInterrupt.

(** [isinstance(e, Exception)]: [SystemExit] and [KeyboardInterrupt] derive
    from [BaseException] only, so [except Exception] lets them through. *)
Definition is_Exception (e : exn) : bool :=
  match e with
  | SystemExit | KeyboardInterrupt => false
  | _ => true
  end.

Inductive res (A : Type) : Type :=
| Return (a : A)
| Raise (e : exn).
Arguments Return {A} a.
Arguments Raise {A} e.

Definition res_bind {A B} (r : res A) (k : A -> res B) : res B :=
  match r with
  | Return a => k a
  | Raise e => Raise e
  end.

Notation "'try!' x ':=' r 'in' k" := (res_bind r (fun x => k))
  (at level 10, x name, r at level 100, k at level 200, only parsing).

(** ** Decimal rendering of integers: [str(n)] and ['%d' % n] *)

Fixpoint uint_digits (d : Decimal.uint) : pystr :=
  match d with
  | Decimal.Nil => []
  | Decimal.D0 d => 48 :: uint_digits d
  | Decimal.D1 d => 49 :: uint_digits d
  | Decimal.D2 d => 50 :: uint_digits d
  | Decimal.D3 d => 51 :: uint_digits d
  | Decimal.D4 d => 52 :: uint_digits d
  | Decimal.D5 d => 53 :: uint_digits d
  | Decimal.D6 d => 54 :: uint_digits d
  | Decimal.D7 d => 55 :: uint_digits d
  | Decimal.D8 d => 56 :: uint_digits d
  | Decimal.D9 d => 57 :: uint_digits d
  end.

(** [str(z)] for an [int] (the same text as ['%d' % z]). *)
Definition str_int (z : Z) : pystr :=
  match Z.to_int z with
  | Decimal.Pos d => uint_digits d
  | Decimal.Neg d => 45 :: uint_digits d
  end.

(** [len(s)] is a non-negative [int]. *)
Definition len {A} (s : list A) : Z := Z.of_nat (length s).

(** ** [str.encode('ascii')] *)

Fixpoint encode_ascii (s : pystr) : res bytes :=
  match s with
  | [] => Return []
  | c :: s' =>
      if c <? 128 then
        match Byte.of_N c with
        | Some b => try! bs := encode_ascii s' in Return (b :: bs)
        | None => Raise UnicodeEncodeError
        end
      else Raise UnicodeEncodeError
  end.

(** ** Wire encoder: netstrings *)

(** [[
def make_netstring(s):
    return str(len(s)).encode('ascii') + b':' + s + b','
]] *)
Definition make_netstring (s : bytes) : res bytes :=
  try! digits := encode_ascii (str_int (len s)) in
  Return (digits ++ [colon] ++ s ++ [comma]).

(** *** The reader on the other side

    The build farm's parser is not part of the repository.  This reader
    follows the words of the specification: read the length up to the
    colon, take exactly that many payload bytes, expect a trailing comma.
    It returns the payload and the bytes left after the comma. *)

Definition digit_of_byte (b : byte) : option (Decimal.uint -> Decimal.uint) :=
  match b with
  | x30 => Some Decimal.D0 | x31 => Some Decimal.D1 | x32 => Some Decimal.D2
  | x33 => Some Decimal.D3 | x34 => Some Decimal.D4 | x35 => Some Decimal.D5
  | x36 => Some Decimal.D6 | x37 => Some Decimal.D7 | x38 => Some Decimal.D8
  | x39 => Some Decimal.D9
  | _ => None
  end.

Fixpoint read_length (bs : bytes) : option (Decimal.uint * bytes) :=
  match bs with
  | [] => None
  | b :: rest =>
      if Byte.eqb b colon then Some (Decimal.Nil, rest)
      else
        match digit_of_byte b, read_length rest with
        | Some f, Some (d, r) => Some (f d, r)
        | _, _ => None
        end
  end.

Definition parse_netstring (bs : bytes) : option (bytes * bytes) :=
  match read_length bs with
  | None => None
  | Some (d, rest) =>
      let n := N.to_nat (N.of_uint d) in
      match drop n rest with
      | b :: tail =>
          if Byte.eqb b comma then Some (take n rest, tail) else None
      | [] => None
      end
  end.

(** The bytes of the header's digits. *)
Fixpoint uint_bytes (d : Decimal.uint) : bytes :=
  match d with
  | Decimal.Nil => []
  | Decimal.D0 d => x30 :: uint_bytes d
  | Decimal.D1 d => x31 :: uint_bytes d
  | Decimal.D2 d => x32 :: uint_bytes d
  | Decimal.D3 d => x33 :: uint_bytes d
  | Decimal.D4 d => x34 :: uint_bytes d
  | Decimal.D5 d => x35 :: uint_bytes d
  | Decimal.D6 d => x36 :: uint_bytes d
  | Decimal.D7 d => x37 :: uint_bytes d
  | Decimal.D8 d => x38 :: uint_bytes d
  | Decimal.D9 d => x39 :: uint_bytes d
  end.

(** The header of [make_netstring s]: the decimal length of [s]. *)
Definition length_digits (s : bytes) : bytes :=
  uint_bytes (N.to_uint (N.of_nat (length s))).

(** ** JSON values and [json.dumps] *)

(** A value decoded from (or to be encoded as) JSON: [None], [bool], [int],
    [str], [list] and [dict] with string keys, in insertion order.  There
    is no [float]: the code formats and compares integers and strings. *)
#[warnings="-register-all"]
Inductive json : Type :=
| JNull
| JBool (b : bool)
| JInt (z : Z)
| JStr (s : pystr)
| JList (l : list json)
| JDict (items : list (pystr * json)).

(** [d.get(k)] on an association list: the first item with key [k]. *)
Fixpoint assoc_get (items : list (pystr * json)) (k : pystr) : option json :=
  match items with
  | [] => None
  | (k', v) :: rest => if decide (k' = k) then Some v else assoc_get rest k
  end.

Definition json_get (j : json) (k : pystr) : option json :=
  match j with
  | JDict items => assoc_get items k
  | _ => None
  end.

(** One lower-case hexadecimal digit, as ['%x'] prints it. *)
Definition hexdigit (d : N) : N := if d <? 10 then 48 + d else 87 + d.

(** [hex_digits n i]: the [n] low nibbles of [i], most significant first. *)
Fixpoint hex_digits (n : nat) (i : N) : pystr :=
  match n with
  | O => []
  | S n' => hexdigit (N.land (N.shiftr i (4 * N.of_nat n')) 15) :: hex_digits n' i
  end.

(** ['\\u{0:04x}'.format(n)] for [n < 0x10000]. *)
Definition escape_u (n : N) : pystr := [92; 117] ++ hex_digits 4 n.

(** The replacement of one character by [json.encoder]'s
    [py_encode_basestring_ascii]: its pattern selects the backslash, the
    double quote and every character outside the range from space to
    tilde; the five short escapes come from its table. *)
Definition escape_char (c : N) : pystr :=
  if c =? 34 then [92; 34]
  else if c =? 92 then [92; 92]
  else if c =? 10 then [92; 110]
  else if c =? 13 then [92; 114]
  else if c =? 9 then [92; 116]
  else if c =? 12 then [92; 102]
  else if c =? 8 then [92; 98]
  else if (32 <=? c) && (c <=? 126) then [c]
  else if c <? 65536 then escape_u c
  else
    let n := c - 65536 in
    let s1 := N.lor 55296 (N.land (N.shiftr n 10) 1023) in
    let s2 := N.lor 56320 (N.land n 1023) in
    escape_u s1 ++ escape_u s2.

Definition encode_basestring_ascii (s : pystr) : pystr :=
  [34] ++ concat (map escape_char s) ++ [34].

(** [sep.join(chunks)] *)
Fixpoint str_join (sep : pystr) (chunks : list pystr) : pystr :=
  match chunks with
  | [] => []
  | [c] => c
  | c :: rest => c ++ sep ++ str_join sep rest
  end.

(** [json.dumps(j, ensure_ascii=True)], with the default separators
    [', '] and [': ']. *)
Fixpoint json_dumps (j : json) : pystr :=
  match j with
  | JNull => lit "null"
  | JBool true => lit "true"
  | JBool false => lit "false"
  | JInt z => str_int z
  | JStr s => encode_basestring_ascii s
  | JList l => [91] ++ str_join (lit ", ") (map json_dumps l) ++ [93]
  | JDict items =>
      [123] ++
      str_join (lit ", ")
        (map (fun kv => encode_basestring_ascii (fst kv) ++ lit ": " ++ json_dumps (snd kv))
           items)
      ++ [125]
  end.

(** ** Configuration

    [config.cfg] is not part of the sources; the fields read by the code
    are taken as a parameter. *)
Record Config : Type := {
  pr_builders : list pystr;      (* cfg.buildbot.pr_builders *)
  fifoci_builders : list pystr;  (* cfg.buildbot.fifoci_builders *)
  jobdir : pystr;                (* cfg.buildbot.jobdir *)
  buildbot_url : pystr;          (* cfg.buildbot.url *)
}.

(** ** Wire encoder: build requests *)

(** The local [request_dict] of [make_build_request]. *)
Definition request_dict (cfg : Config) (repo : pystr) (pr_id : Z)
    (job_id baserev headrev who comment : pystr) : json :=
  JDict [
    (lit "branch", JStr (lit "refs/pull/" ++ str_int pr_id ++ lit "/head"));
    (lit "builderNames", JList (map JStr (pr_builders cfg)));
    (lit "jobid", JStr job_id);
    (lit "baserev", JStr []);
    (lit "patch_level", JInt 0);
    (lit "patch_body", JNull);
    (lit "who", JStr who);
    (lit "comment", JStr comment);
    (lit "properties", JDict [
       (lit "branchname", JStr (lit "pr-" ++ str_int pr_id));
       (lit "baserev", JStr baserev);
       (lit "headrev", JStr headrev);
       (lit "shortrev", JStr (take 6 headrev));
       (lit "pr_id", JInt pr_id);
       (lit "repo", JStr repo)])
  ].

(** [[
    encoded = json.dumps(request_dict, ensure_ascii=True).encode('ascii')
    version = make_netstring(b'5')
    return version + make_netstring(encoded)
]] *)
Definition make_build_request (cfg : Config) (repo : pystr) (pr_id : Z)
    (job_id baserev headrev who comment : pystr) : res bytes :=
  let request_dict := request_dict cfg repo pr_id job_id baserev headrev who comment in
  try! encoded := encode_ascii (json_dumps request_dict) in
  try! version := make_netstring [x35] in
  try! payload := make_netstring encoded in
  Return (version ++ payload).

(** ** Events and observable effects *)

(** What [ObjectLike.__getattr__] hands out: a plain value, or a nested
    [dict] wrapped in a fresh [ObjectLike]. *)
Inductive pyval : Type :=
| Val (j : json)
| ObjectLike (dictlike : list (pystr * json)).

(** Truth value of a Python object.  [ObjectLike] defines neither
    [__bool__] nor [__len__], so an instance is always true. *)
Definition truthy (v : pyval) : bool :=
  match v with
  | ObjectLike _ => true
  | Val JNull => false
  | Val (JBool b) => b
  | Val (JInt z) => negb (z =? 0)%Z
  | Val (JStr s) => negb (bool_decide (s = []))
  | Val (JList l) => match l with [] => false | _ => true end
  | Val (JDict d) => match d with [] => false | _ => true end
  end.

(** Modelled from the spec: [events.BuildStatus] is not part of the
    sources.  The fields are the nine positional arguments of the calls in
    [buildbot.py], named after the spec's BuildStatusEvent (repository,
    head revision, short revision, builder name, pull-request id, success,
    pending, details URL, description). *)
Record BuildStatus : Type := {
  bs_repo : pyval;
  bs_hash : pyval;
  bs_shortrev : pyval;
  bs_service : pystr;
  bs_pr : pyval;
  bs_success : bool;
  bs_pending : bool;
  bs_url : pystr;
  bs_description : pystr;
}.

(** Modelled from the spec: [events.PullRequestFifoCIStatus] is not part of
    the sources; its four positional arguments (repository, head revision,
    builder name, pull-request id) make the downstream-CI confirmation. *)
Record PullRequestFifoCIStatus : Type := {
  fifo_repo : pyval;
  fifo_hash : pyval;
  fifo_service : pystr;
  fifo_pr : pyval;
}.

Inductive event : Type :=
| EvBuildStatus (e : BuildStatus)
| EvFifoCIStatus (e : PullRequestFifoCIStatus).

Inductive effect : Type :=
| Dispatch (topic : pystr) (evt : event)   (* events.dispatcher.dispatch *)
| LogInfo (fmt : pystr) (args : list pyval) (* logging.info *)
| LogException (fmt : pystr) (e : exn)      (* logging.exception *)
| Stdout (text : pystr)                     (* print *)
| Sleep (seconds : Z)                       (* time.sleep *)
| HttpGet (url : pystr)                     (* requests.get *)
| SysOpen (path : pystr)                    (* open(path, 'wb') *)
| SysWrite (path : pystr) (data : bytes)    (* file.write *)
| SysRename (src dst : pystr).              (* os.rename *)

(** ** The outside world *)

(** The answer of [GET /repos/{repo}/pulls/{id}], with the four fields the
    worker reads: [pr['mergeable']] (true, false or null),
    [pr['mergeable_state']], [pr['base']['sha']] and [pr['head']['sha']]. *)
Record PullRequestJson : Type := {
  mergeable : option bool;
  mergeable_state : pystr;
  base_sha : pystr;
  head_sha : pystr;
}.

(** What the program cannot decide: the configuration, the answers of the
    source-control host ([requests.get(url).json()] raises when the request
    fails or the body is not JSON; a decoded body has the four fields, as
    the host's interface promises), the bytes of [os.urandom(16)] (the k-th
    draw, as an integer), and what the operating system does with a file:
    whether it lets it be created or renamed, whether [write] on it raises
    (a full disk, a size limit, an input/output error), and how many of the
    bytes handed to [write] have reached the file when the file object is
    dropped. *)
Record Env : Type := {
  cfg : Config;
  requests_get_json : pystr -> res PullRequestJson;
  urandom16 : nat -> N;
  may_open_wb : pystr -> bool;
  may_write : pystr -> bytes -> bool;
  stored : pystr -> bytes -> nat;
  may_rename : pystr -> pystr -> bool;
}.

(** The mutable state: the regular files, the number of entropy draws so
    far, and everything observed so far, oldest first. *)
Record World : Type := {
  files : gmap pystr bytes;
  drawn : nat;
  trace : list effect;
}.

Definition emit (e : effect) (w : World) : World :=
  {| files := files w; drawn := drawn w; trace := trace w ++ [e] |}.

Definition set_files (f : gmap pystr bytes) (w : World) : World :=
  {| files := f; drawn := drawn w; trace := trace w |}.

(** The world after the effects [es], in order. *)
Definition emit_all (es : list effect) (w : World) : World :=
  fold_left (fun w e => emit e w) es w.

(** The events handed to the bus, in order. *)
Fixpoint dispatched (tr : list effect) : list (pystr * event) :=
  match tr with
  | [] => []
  | Dispatch topic e :: tr' => (topic, e) :: dispatched tr'
  | _ :: tr' => dispatched tr'
  end.

(** The file-system calls made, in order. *)
Fixpoint syscalls (tr : list effect) : list effect :=
  match tr with
  | [] => []
  | SysOpen p :: tr' => SysOpen p :: syscalls tr'
  | SysWrite p d :: tr' => SysWrite p d :: syscalls tr'
  | SysRename a b :: tr' => SysRename a b :: syscalls tr'
  | _ :: tr' => syscalls tr'
  end.

(** ** Computations with effects and exceptions *)

Definition M (A : Type) : Type := World -> res A * World.

Definition ret {A} (a : A) : M A := fun w => (Return a, w).
Definition raise {A} (e : exn) : M A := fun w => (Raise e, w).
Definition lift {A} (r : res A) : M A := fun w => (r, w).

Definition bind {A B} (m : M A) (k : A -> M B) : M B :=
  fun w =>
    match m w with
    | (Return a, w') => k a w'
    | (Raise e, w') => (Raise e, w')
    end.

Notation "'let!' x ':=' m 'in' k" := (bind m (fun x => k))
  (at level 10, x name, m at level 100, k at level 200, only parsing).
Notation "'do!' m 'in' k" := (bind m (fun _ => k))
  (at level 10, m at level 100, k at level 200, only parsing).

Definition tell (e : effect) : M unit := fun w => (Return tt, emit e w).

(** [for x in l: body(x)] *)
Fixpoint for_each {A} (l : list A) (body : A -> M unit) : M unit :=
  match l with
  | [] => ret tt
  | x :: rest => do! body x in for_each rest body
  end.

Definition dispatch (topic : pystr) (evt : event) : M unit := tell (Dispatch topic evt).
Definition logging_info (fmt : pystr) (args : list pyval) : M unit := tell (LogInfo fmt args).

(** ** Paths, unique names and the file system *)

Definition sep : N := 47.

Definition startswith_sep (b : pystr) : bool :=
  match b with
  | c :: _ => c =? sep
  | [] => false
  end.

Definition endswith_sep (path : pystr) : bool :=
  match last path with
  | Some c => c =? sep
  | None => false
  end.

(** [posixpath.join(a, *p)]:
[[
    for b in p:
        if b.startswith(sep): path = b
        elif not path or path.endswith(sep): path += b
        else: path += sep + b
]] *)
Definition path_join (a : pystr) (p : list pystr) : pystr :=
  fold_left
    (fun path b =>
       if startswith_sep b then b
       else if bool_decide (path = []) || endswith_sep path then path ++ b
       else path ++ [sep] ++ b)
    p a.

(** [UUID(bytes=os.urandom(16), version=4).int]: the variant and version
    bits are forced, the other 122 bits are random. *)
Definition uuid4_int (random : N) : N :=
  let int := random mod 2 ^ 128 in
  let int := N.ldiff int (N.shiftl 49152 48) in
  let int := N.lor int (N.shiftl 32768 48) in
  let int := N.ldiff int (N.shiftl 61440 64) in
  N.lor int (N.shiftl 4 76).

(** [str(uuid)]: ['%032x' % int] cut as 8-4-4-4-12. *)
Definition uuid_str (int : N) : pystr :=
  let hex := hex_digits 32 int in
  take 8 hex ++ [45] ++ take 4 (drop 8 hex) ++ [45] ++ take 4 (drop 12 hex)
    ++ [45] ++ take 4 (drop 16 hex) ++ [45] ++ drop 20 hex.

Section Program.

Variable env : Env.

(** [str(uuid.uuid4())] *)
Definition uuid4 : M pystr :=
  fun w =>
    (Return (uuid_str (uuid4_int (urandom16 env (drawn w)))),
     {| files := files w; drawn := S (drawn w); trace := trace w |}).

(** [open(path, 'wb')]: creates the file or truncates it. *)
Definition open_wb (path : pystr) : M unit :=
  fun w =>
    if may_open_wb env path
    then (Return tt, emit (SysOpen path) (set_files (<[path := []]> (files w)) w))
    else (Raise OSError, w).

(** [open(path, 'wb').write(data)], after the [open]: the call of [write]
    on the buffered file object, which is dropped at once and never closed
    by the program.  [write] raises [OSError] when the operating system
    refuses the data; part of the data may be in the file by then.  When
    [write] returns, the data may still lie in the buffer: the interpreter
    flushes it when it drops the object and discards an error of that flush,
    so the call returns all the same and the file keeps the bytes that got
    through, the first [stored env path data] of them. *)
Definition file_write (path : pystr) (data : bytes) : M unit :=
  fun w =>
    match files w !! path with
    | Some old =>
        let w' := emit (SysWrite path data)
                    (set_files (<[path := old ++ take (stored env path data) data]> (files w)) w) in
        if may_write env path data then (Return tt, w') else (Raise OSError, w')
    | None => (Raise OSError, w)
    end.

(** [os.rename(src, dst)]: one step; an existing [dst] is replaced. *)
Definition os_rename (src dst : pystr) : M unit :=
  fun w =>
    match files w !! src with
    | Some data =>
        if may_rename env src dst
        then (Return tt,
              emit (SysRename src dst)
                (set_files (<[dst := data]> (delete src (files w))) w))
        else (Raise OSError, w)
    | None => (Raise OSError, w)
    end.

(** ** Job submitter *)

(** [[
def send_build_request(build_request):
    path = os.path.join(cfg.buildbot.jobdir, 'tmp', str(uuid.uuid4()))
    open(path, 'wb').write(build_request)
    final_path = os.path.join(cfg.buildbot.jobdir, 'new', str(uuid.uuid4()))
    os.rename(path, final_path)
    logging.info('Sent build request: %r', final_path)
]]
    The file object is dropped as soon as [write] returns, which closes the
    file before the rename; nothing checks that all of the request has
    reached it (see [file_write]). *)
Definition send_build_request (build_request : bytes) : M unit :=
  let! u1 := uuid4 in
  let path := path_join (jobdir (cfg env)) [lit "tmp"; u1] in
  do! open_wb path in
  do! file_write path build_request in
  let! u2 := uuid4 in
  let final_path := path_join (jobdir (cfg env)) [lit "new"; u2] in
  do! os_rename path final_path in
  logging_info (lit "Sent build request: %r") [Val (JStr final_path)].

(** ** Dispatch worker *)

(** An item of [PullRequestBuilder.queue], as [push] stores it. *)
Record BuildTrigger : Type := {
  in_behalf_of : pystr;
  trusted : bool;
  repo : pystr;
  pr_id : Z;
}.

Definition json_of_mergeable (m : option bool) : json :=
  match m with
  | Some b => JBool b
  | None => JNull
  end.

Definition pr_status (t : BuildTrigger) (pr : PullRequestJson) (service : pystr)
    (success pending : bool) (url description : pystr) : event :=
  EvBuildStatus
    {| bs_repo := Val (JStr (repo t));
       bs_hash := Val (JStr (head_sha pr));
       bs_shortrev := Val (JStr (take 6 (head_sha pr)));
       bs_service := service;
       bs_pr := Val (JInt (pr_id t));
       bs_success := success;
       bs_pending := pending;
       bs_url := url;
       bs_description := description |}.

(** ['https://api.github.com/repos/%s/pulls/%d' % (repo, pr_id)] *)
Definition pull_request_url (repo : pystr) (pr_id : Z) : pystr :=
  lit "https://api.github.com/repos/" ++ repo ++ lit "/pulls/" ++ str_int pr_id.

(** The body of the loop of [PullRequestBuilder.run] for the item [t] that
    [queue.get()] returned; [continue] is an early [ret tt]. *)
Definition PullRequestBuilder_step (t : BuildTrigger) : M unit :=
  let url := pull_request_url (repo t) (pr_id t) in
  do! tell (HttpGet url) in
  let! pr := lift (requests_get_json env url) in
  do! logging_info (lit "PR %s mergeable: %s (%s)")
        [Val (JInt (pr_id t)); Val (json_of_mergeable (mergeable pr));
         Val (JStr (mergeable_state pr))] in
  if negb (trusted t) then
    dispatch (lit "prbuilder")
      (pr_status t pr (lit "default") false false []
         (lit "PR not built because " ++ in_behalf_of t ++ lit " is not auto-trusted."))
  else
  if bool_decide (mergeable pr = Some false) then
    dispatch (lit "prbuilder")
      (pr_status t pr (lit "default") false false []
         (lit "PR cannot be merged, please rebase."))
  else
  do! dispatch (lit "prbuilder")
        (pr_status t pr (lit "default") true false []
           (lit "Very basic checks passed, handed off to Buildbot.")) in
  do! for_each (pr_builders (cfg env)) (fun builder =>
        dispatch (lit "prbuilder")
          (pr_status t pr builder false true (buildbot_url (cfg env))
             (lit "Auto build pending"))) in
  let! req := lift (make_build_request (cfg env) (repo t) (pr_id t)
                      (str_int (pr_id t) ++ lit "-" ++ take 6 (head_sha pr))
                      (base_sha pr) (head_sha pr)
                      (lit "Central (on behalf of: " ++ in_behalf_of t ++ lit ")")
                      (lit "Auto build for PR #" ++ str_int (pr_id t) ++ lit " ("
                         ++ head_sha pr ++ lit ").")) in
  send_build_request req.

(** How a call that returns nothing can end: it returns, it raises, or it
    never comes back (here: [queue.get()] on a queue that stays empty). *)
Inductive outcome : Set :=
| Returned
| Raised (e : exn)
| Blocked.

(** [PullRequestBuilder.run] on the queue [q]: [while True] takes the
    items in arrival order; nothing in the loop catches an exception. *)
Fixpoint PullRequestBuilder_run (q : list BuildTrigger) (w : World)
    : outcome * list BuildTrigger * World :=
  match q with
  | [] => (Blocked, [], w)
  | t :: q' =>
      match PullRequestBuilder_step t w with
      | (Return _, w') => PullRequestBuilder_run q' w'
      | (Raise e, w') => (Raised e, q', w')
      end
  end.

(** ** Status collector *)

(** An item of [BuildStatusCollector.queue]: the raw callback of the build
    farm, with the fields the collector reads ([evt.builder.name],
    [evt.complete], [evt.results], [evt.url], [evt.properties]). *)
Record RawBuildResult : Type := {
  builder_name : pystr;
  complete : bool;
  results : json;
  url : pystr;
  properties : gmap pystr (list json);
}.

(** [{k: v[0] for k, v in evt.properties.items()}]; [v[0]] raises on an
    empty list. *)
Definition collapse (props : gmap pystr (list json)) : res (gmap pystr json) :=
  if decide (map_Forall (fun _ v => is_Some (head v)) props)
  then Return (omap head props)
  else Raise IndexError.

(** [ObjectLike.__contains__] *)
Definition ObjectLike_contains (dictlike : gmap pystr json) (name : pystr) : bool :=
  bool_decide (is_Some (dictlike !! name)).

(** The method [ObjectLike.__getattr__], called with [name]:
[[
        val = self.dictlike.get(name)
        if isinstance(val, dict): return ObjectLike(val)
        else: return val
]]
    Python calls it for [obj.name] only when it finds no attribute [name]
    in the instance or the class.  The collector reads [headrev], [repo],
    [pr_id] and [shortrev], none of which is such an attribute. *)
Definition ObjectLike_getattr (dictlike : gmap pystr json) (name : pystr) : pyval :=
  match dictlike !! name with
  | Some (JDict d) => ObjectLike d
  | Some v => Val v
  | None => Val JNull
  end.

(** [[
            has_all_required = True
            for required in ('headrev', 'repo', 'shortrev'):
                if required not in props:
                    has_all_required = False
                    break
]] *)
Fixpoint has_all_required (props : gmap pystr json) (required : list pystr) : bool :=
  match required with
  | [] => true
  | r :: rest =>
      if negb (ObjectLike_contains props r) then false
      else has_all_required props rest
  end.

(** [x == n] for a decoded value [x] and an [int] [n]: [True] and [False]
    compare as 1 and 0. *)
Definition eq_int (x : json) (n : Z) : bool :=
  match x with
  | JInt z => (z =? n)%Z
  | JBool b => ((if b then 1 else 0) =? n)%Z
  | _ => false
  end.

(** [evt.results in (0, 1)] *)
Definition results_in_0_1 (x : json) : bool := eq_int x 0 || eq_int x 1.

(** The body of the loop of [BuildStatusCollector.run] for the item [evt]. *)
Definition BuildStatusCollector_step (evt : RawBuildResult) : M unit :=
  let builder := builder_name evt in
  let! props := lift (collapse (properties evt)) in
  if negb (has_all_required props [lit "headrev"; lit "repo"; lit "shortrev"])
  then ret tt
  else
  let headrev := ObjectLike_getattr props (lit "headrev") in
  let repo := ObjectLike_getattr props (lit "repo") in
  let pr_id := ObjectLike_getattr props (lit "pr_id") in
  let shortrev := ObjectLike_getattr props (lit "shortrev") in
  let pending := negb (complete evt) in
  let success := results_in_0_1 (results evt) in
  if bool_decide (builder ∈ pr_builders (cfg env)) then
    let description :=
      if pending then lit "Auto build in progress on builder " ++ builder
      else if success then lit "Build succeeded on builder " ++ builder
      else lit "Build failed on builder " ++ builder in
    dispatch (lit "buildbot")
      (EvBuildStatus
         {| bs_repo := repo; bs_hash := headrev; bs_shortrev := shortrev;
            bs_service := builder; bs_pr := pr_id; bs_success := success;
            bs_pending := pending; bs_url := url evt;
            bs_description := description |})
  else if truthy pr_id && bool_decide (builder ∈ fifoci_builders (cfg env)) && success then
    dispatch (lit "buildbot")
      (EvFifoCIStatus
         {| fifo_repo := repo; fifo_hash := headrev; fifo_service := builder;
            fifo_pr := pr_id |})
  else ret tt.

(** [BuildStatusCollector.run] on the queue [q]. *)
Fixpoint BuildStatusCollector_run (q : list RawBuildResult) (w : World)
    : outcome * list RawBuildResult * World :=
  match q with
  | [] => (Blocked, [], w)
  | evt :: q' =>
      match BuildStatusCollector_step evt w with
      | (Return _, w') => BuildStatusCollector_run q' w'
      | (Raise e, w') => (Raised e, q', w')
      end
  end.

End Program.

(** ** Supervised task runner *)

(** What became of the thread after a number of rounds of its loop. *)
Inductive thread_state : Set :=
| Running            (* still in the [while True] loop *)
| Parked             (* inside a call of the target that never returns *)
| Died (e : exn).    (* an exception left [run] *)

Section DaemonThread.

(** The state the target keeps between its calls (a queue, a counter). *)
Variable T : Type.
Variable daemon_target : T -> World -> outcome * T * World.
(** ['%s' % self.daemon_target] and ['%r' % self]. *)
Variable target_str : pystr.

(** [fuel] rounds of the loop below (the target is called with the stored
    arguments, none for the two workers):
[[
    def run(self):
        while True:
            try:
                print('Running %s' % self.daemon_target)
                self.daemon_target()
            except Exception:
                logging.exception('Daemon thread %r failed', self)
                time.sleep(1)
]] *)
Fixpoint DaemonThread_run (fuel : nat) (t : T) (w : World)
    : thread_state * T * World :=
  match fuel with
  | O => (Running, t, w)
  | S fuel' =>
      match daemon_target t (emit (Stdout (lit "Running " ++ target_str)) w) with
      | (Returned, t', w') => DaemonThread_run fuel' t' w'
      | (Raised e, t', w') =>
          if is_Exception e then
            DaemonThread_run fuel' t'
              (emit (Sleep 1)
                 (emit (LogException (lit "Daemon thread %r failed") e) w'))
          else (Died e, t', w')
      | (Blocked, t', w') => (Parked, t', w')
      end
  end.

End DaemonThread.

Arguments DaemonThread_run {T} daemon_target target_str fuel t w.

(** The number of calls of the target: each one follows a [print]. *)
Fixpoint invocations (tr : list effect) : nat :=
  match tr with
  | [] => O
  | Stdout _ :: tr' => S (invocations tr')
  | _ :: tr' => invocations tr'
  end.

(** The pauses taken, in order. *)
Fixpoint sleeps (tr : list effect) : list Z :=
  match tr with
  | [] => []
  | Sleep n :: tr' => n :: sleeps tr'
  | _ :: tr' => sleeps tr'
  end.

(** ** Queues *)

(** [PullRequestBuilder.push]: [self.queue.put((in_behalf_of, trusted, repo,
    pr_id))]; the queue is first-in, first-out. *)
Definition PullRequestBuilder_push (q : list BuildTrigger)
    (in_behalf_of : pystr) (trusted : bool) (repo : pystr) (pr_id : Z)
    : list BuildTrigger :=
  q ++ [{| in_behalf_of := in_behalf_of; trusted := trusted; repo := repo;
           pr_id := pr_id |}].

(** [BuildStatusCollector.push]: [self.queue.put(evt)]. *)
Definition BuildStatusCollector_push (q : list RawBuildResult) (evt : RawBuildResult)
    : list RawBuildResult :=
  q ++ [evt].

(** ** Periodic tasks *)

Section PeriodicTask.

Variable T : Type.
Variable f : T -> World -> outcome * T * World.
(** [f.__name__], if [f] has one: a function does, a [functools.partial]
    object or an instance with [__call__] does not. *)
Variable f_name : option pystr.
(** How [time.sleep(secs)] ends: [None] when it sleeps, [Some e] when it
    raises [e] without sleeping, as it does with [ValueError] for a
    negative argument and with [OverflowError] for one beyond the range of
    the platform's timer. *)
Variable time_sleep : Z -> option exn.
(** The period in seconds and ['%s' % wrapper]. *)
Variable interval : Z.
Variable wrapper_str : pystr.

(** [spawn_periodic_task(interval, f)] (the stored arguments of [f] left
    out): a [DaemonThread] whose target is
[[
    def wrapper():
        while True:
            try:
                f()
            except Exception:
                logging.exception('Periodic task %s failed', f.__name__)
            time.sleep(interval)
]]
    One unit of [fuel] is one call of [f].  [entering] says that
    [DaemonThread.run] is about to call [wrapper] (it prints first);
    otherwise the thread is inside [wrapper]'s loop.  Two things can raise
    inside [wrapper] besides [f]: the handler evaluates [f.__name__], which
    raises [AttributeError] when [f] has no such attribute, and
    [time.sleep(interval)] can raise.  Either exception leaves [wrapper] and
    is handled by [DaemonThread.run], which logs it, sleeps one second and
    calls [wrapper] again.  An exception that is no [Exception] passes both
    handlers. *)
Fixpoint periodic_rounds (fuel : nat) (entering : bool) (t : T) (w : World)
    : thread_state * T * World :=
  match fuel with
  | O => (Running, t, w)
  | S fuel' =>
      let w0 := if entering then emit (Stdout (lit "Running " ++ wrapper_str)) w else w in
      let leave e t' w2 :=
        if is_Exception e then
          periodic_rounds fuel' true t'
            (emit (Sleep 1)
               (emit (LogException (lit "Daemon thread %r failed") e) w2))
        else (Died e, t', w2) in
      let pause t' w2 :=
        match time_sleep interval with
        | Some e => leave e t' w2
        | None => periodic_rounds fuel' false t' (emit (Sleep interval) w2)
        end in
      match f t w0 with
      | (Returned, t', w1) => pause t' w1
      | (Raised e, t', w1) =>
          if is_Exception e then
            match f_name with
            | Some _ => pause t' (emit (LogException (lit "Periodic task %s failed") e) w1)
            | None => leave AttributeError t' w1
            end
          else (Died e, t', w1)
      | (Blocked, t', w1) => (Parked, t', w1)
      end
  end.

Definition spawn_periodic_task (fuel : nat) (t : T) (w : World)
    : thread_state * T * World :=
  periodic_rounds fuel true t w.

End PeriodicTask.

Arguments periodic_rounds {T} f f_name time_sleep interval wrapper_str fuel entering t w.
Arguments spawn_periodic_task {T} f f_name time_sleep interval wrapper_str fuel t w.

(** ** [shorten_url] *)

(** [s.startswith(prefix)] *)
Fixpoint str_startswith (s prefix : pystr) {struct prefix} : bool :=
  match prefix, s with
  | [], _ => true
  | p :: prefix', c :: s' => (c =? p) && str_startswith s' prefix'
  | _ :: _, [] => false
  end.

(** [s.replace(old, new)] for a non-empty [old]: the occurrences of [old]
    are taken from left to right, without overlap.  [skip] counts the
    characters of a replaced occurrence that are still to be passed over. *)
Fixpoint str_replace_from (old new : pystr) (skip : nat) (s : pystr) : pystr :=
  match s with
  | [] => []
  | c :: s' =>
      match skip with
      | S k => str_replace_from old new k s'
      | O =>
          if str_startswith (c :: s') old
          then new ++ str_replace_from old new (length old - 1) s'
          else c :: str_replace_from old new 0 s'
      end
  end.

(** [s.replace(old, new)]; with an empty [old], [new] goes in front of every
    character and at the end. *)
Definition str_replace (old new s : pystr) : pystr :=
  match old with
  | [] => new ++ concat (map (fun c => c :: new) s)
  | _ :: _ => str_replace_from old new 0 s
  end.

Definition pull_prefix : pystr := lit "https://github.com/dolphin-emu/dolphin/pull/".
Definition commit_prefix : pystr := lit "https://github.com/dolphin-emu/dolphin/commit/".
Definition short_pull : pystr := lit "https://dolp.in/pr".
Definition short_commit : pystr := lit "https://dolp.in/r".

(** [[
def shorten_url(url):
    if url == '':
        return '<no url>'
    elif url.startswith("https://github.com/dolphin-emu/dolphin/pull/"):
        return url.replace("https://github.com/dolphin-emu/dolphin/pull/", "https://dolp.in/pr")
    elif url.startswith("https://github.com/dolphin-emu/dolphin/commit/"):
        return url.replace("https://github.com/dolphin-emu/dolphin/commit/", "https://dolp.in/r")
    return url
]] *)
Definition shorten_url (url : pystr) : pystr :=
  if bool_decide (url = []) then lit "<no url>"
  else if str_startswith url pull_prefix then str_replace pull_prefix short_pull url
  else if str_startswith url commit_prefix then str_replace commit_prefix short_commit url
  else url.

(** ** [ObjectLike] on a nested dictionary *)

(** What [ObjectLike] makes of a value before it hands it out:
    [ObjectLike(v)] if [isinstance(v, dict)], else [v]. *)
Definition ObjectLike_wrap (val : json) : pyval :=
  match val with
  | JDict d => ObjectLike d
  | _ => Val val
  end.

(** [ObjectLike.items], on the items of [dictlike] in the order of the
    dictionary:
[[
        for k, v in self.dictlike.items():
            if isinstance(v, dict): yield (k, ObjectLike(v))
            else: yield (k, v)
]] *)
Definition ObjectLike_items (dictlike : list (pystr * json)) : list (pystr * pyval) :=
  map (fun kv => (fst kv, ObjectLike_wrap (snd kv))) dictlike.

(** What [obj.name] finds on an [ObjectLike]: the dictionary itself, a bound
    method of the class, or what [__getattr__] returns. *)
Inductive attribute : Type :=
| Attr_dictlike (dictlike : gmap pystr json)
| Attr_method (name : pystr)
| Attr_value (val : pyval).

(** A name that is no attribute of an [ObjectLike] or of its class, so that
    [obj.name] ends in [__getattr__]: not [dictlike] (set by [reset]), not
    [reset] or [items], and, to be safe, no name with two leading
    underscores (the special methods of the class and those of [object],
    which differ between interpreters). *)
Definition plain_name (name : pystr) : bool :=
  negb (bool_decide (name ∈ [lit "dictlike"; lit "reset"; lit "items"]))
  && negb (str_startswith name (lit "__")).

(** [obj.name] for an [ObjectLike] over [dictlike].  Python looks in the
    instance and in the class first and calls [__getattr__] only when it
    finds nothing there.  For a name with two leading underscores the model
    gives no answer. *)
Definition ObjectLike_attribute (dictlike : gmap pystr json) (name : pystr)
    : option attribute :=
  if bool_decide (name = lit "dictlike") then Some (Attr_dictlike dictlike)
  else if bool_decide (name ∈ [lit "reset"; lit "items"]) then Some (Attr_method name)
  else if str_startswith name (lit "__") then None
  else Some (Attr_value (ObjectLike_getattr dictlike name)).

(** ** Listeners *)

(** Modelled from the spec: the event classes of [events] are not part of
    the sources.  Each record has the fields its listener reads. *)
Record GHPullRequest : Type := {
  ghpr_action : pystr;
  ghpr_repo : pystr;
  ghpr_author : pystr;
  ghpr_safe_author : bool;
  ghpr_id : Z;
}.

Record GHIssueComment : Type := {
  ghic_action : pystr;
  ghic_repo : pystr;
  ghic_author : pystr;
  ghic_safe_author : bool;
  ghic_id : Z;
  ghic_body : pystr;
}.

Record IRCMessage : Type := {
  irc_who : pystr;
  irc_what : pystr;
  irc_modes : pystr;
  irc_direct : bool;
}.

(** The configuration the listeners read: [cfg.github.maintain],
    [cfg.github.rebuild_command] and [cfg.irc.rebuild_repo]. *)
Record ListenerConfig : Type := {
  maintain : list pystr;
  rebuild_command : pystr;
  rebuild_repo : pystr;
}.

(** [needle in haystack] for two strings. *)
Fixpoint str_contains (haystack needle : pystr) : bool :=
  str_startswith haystack needle ||
  match haystack with
  | [] => false
  | _ :: rest => str_contains rest needle
  end.

Section Listeners.

Variable lcfg : ListenerConfig.

(** The library functions the listeners call, as they are:
    [str.lower]; [re.search(r'\brebuild (pr ?)?(?P<pr_id>\d+)\b', what,
    re.I)] followed by [group('pr_id')], [None] when there is no match;
    and [int]. *)
Variable str_lower : pystr -> pystr.
Variable search_rebuild : pystr -> option pystr.
Variable int_of_str : pystr -> res Z.

(** [[
    def push_event(self, evt):
        if evt.action == 'opened' or evt.action == 'synchronize':
            if evt.repo in cfg.github.maintain:
                self.builder.push(evt.author, evt.safe_author, evt.repo,
                                  evt.id)
]] *)
Definition PullRequestListener_push_event (evt : GHPullRequest)
    (q : list BuildTrigger) : list BuildTrigger :=
  if bool_decide (ghpr_action evt = lit "opened")
     || bool_decide (ghpr_action evt = lit "synchronize") then
    if bool_decide (ghpr_repo evt ∈ maintain lcfg) then
      PullRequestBuilder_push q (ghpr_author evt) (ghpr_safe_author evt)
        (ghpr_repo evt) (ghpr_id evt)
    else q
  else q.

(** [[
    def push_event(self, evt):
        if not evt.safe_author:
            return
        if cfg.github.rebuild_command.lower() not in evt.body.lower():
            return
        if evt.repo not in cfg.github.maintain:
            return
        if evt.action != 'created':
            return
        self.builder.push(evt.author, evt.safe_author, evt.repo, evt.id)
]] *)
Definition ManualPullRequestListener_push_event (evt : GHIssueComment)
    (q : list BuildTrigger) : list BuildTrigger :=
  if negb (ghic_safe_author evt) then q
  else if negb (str_contains (str_lower (ghic_body evt))
                  (str_lower (rebuild_command lcfg))) then q
  else if negb (bool_decide (ghic_repo evt ∈ maintain lcfg)) then q
  else if negb (bool_decide (ghic_action evt = lit "created")) then q
  else PullRequestBuilder_push q (ghic_author evt) (ghic_safe_author evt)
         (ghic_repo evt) (ghic_id evt).

(** [[
    def push_event(self, evt):
        trusted = 'o' in evt.modes
        if not evt.direct or not trusted:
            return
        matches = re.search(r'\brebuild (pr ?)?(?P<pr_id>\d+)\b', evt.what,
                            re.I)
        if not matches:
            return
        pr_id = matches.group('pr_id')
        try:
            pr_id = int(pr_id)
        except ValueError:
            return
        self.builder.push(evt.who, trusted, cfg.irc.rebuild_repo, pr_id)
]]
    An exception of [int] other than [ValueError] leaves the handler. *)
Definition IRCRebuildListener_push_event (evt : IRCMessage)
    (q : list BuildTrigger) : res (list BuildTrigger) :=
  let trusted := str_contains (irc_modes evt) (lit "o") in
  if negb (irc_direct evt) || negb trusted then Return q
  else
    match search_rebuild (irc_what evt) with
    | None => Return q
    | Some pr_id =>
        match int_of_str pr_id with
        | Raise ValueError => Return q
        | Raise e => Raise e
        | Return pr_id =>
            Return (PullRequestBuilder_push q (irc_who evt) trusted (rebuild_repo lcfg) pr_id)
        end
    end.

(** [BBHookListener.push_event]: [self.collector.push(evt.raw)]. *)
Definition BBHookListener_push_event (raw : RawBuildResult)
    (q : list RawBuildResult) : list RawBuildResult :=
  BuildStatusCollector_push q raw.

End Listeners.

(** * What the theorems speak about *)

(** ** Text that is ASCII *)

Definition is_ascii (s : pystr) : Prop := Forall (fun c => c < 128) s.

(** Induction over [json], through the lists it is nested in. *)
Section json_induction.
Variable P : json -> Prop.
Hypothesis Hnull : P JNull.
Hypothesis Hbool : forall b, P (JBool b).
Hypothesis Hint : forall z, P (JInt z).
Hypothesis Hstr : forall s, P (JStr s).
Hypothesis Hlist : forall l, Forall P l -> P (JList l).
Hypothesis Hdict : forall items, Forall (fun kv => P (snd kv)) items -> P (JDict items).

Fixpoint json_nested_ind (j : json) : P j :=
    match j with
    | JNull => Hnull
    | JBool b => Hbool b
    | JInt z => Hint z
    | JStr s => Hstr s
    | JList l =>
        Hlist l
          ((fix go (l : list json) : Forall P l :=
              match l with
              | [] => @List.Forall_nil _ P
              | x :: r => @List.Forall_cons _ P x r (json_nested_ind x) (go r)
              end) l)
    | JDict items =>
        Hdict items
          ((fix go (l : list (pystr * json)) : Forall (fun kv => P (snd kv)) l :=
              match l with
              | [] => @List.Forall_nil _ (fun kv => P (snd kv))
              | kv :: r =>
                  @List.Forall_cons _ (fun kv => P (snd kv)) kv r
                    (json_nested_ind (snd kv)) (go r)
              end) items)
    end.
End json_induction.

(** Closes [is_ascii] of a literal. *)
Ltac ascii_literal := vm_compute; repeat constructor.

(** ** The effects and events of the dispatch worker *)

(** What every path shows first: the request and the log line. *)
Definition preamble (t : BuildTrigger) (pr : PullRequestJson) : list effect :=
  [HttpGet (pull_request_url (repo t) (pr_id t));
   LogInfo (lit "PR %s mergeable: %s (%s)")
     [Val (JInt (pr_id t)); Val (json_of_mergeable (mergeable pr));
      Val (JStr (mergeable_state pr))]].

Definition untrusted_event (t : BuildTrigger) (pr : PullRequestJson) : event :=
  pr_status t pr (lit "default") false false []
    (lit "PR not built because " ++ in_behalf_of t ++ lit " is not auto-trusted.").

Definition unmergeable_event (t : BuildTrigger) (pr : PullRequestJson) : event :=
  pr_status t pr (lit "default") false false [] (lit "PR cannot be merged, please rebase.").

Definition aggregate_event (t : BuildTrigger) (pr : PullRequestJson) : event :=
  pr_status t pr (lit "default") true false []
    (lit "Very basic checks passed, handed off to Buildbot.").

Definition pending_event (env : Env) (t : BuildTrigger) (pr : PullRequestJson)
    (builder : pystr) : event :=
  pr_status t pr builder false true (buildbot_url (cfg env)) (lit "Auto build pending").

(** ** The names of a submission *)

(** What [os.path.join] puts in front of the second component. *)
Definition dir_prefix (a : pystr) : pystr :=
  if bool_decide (a = []) || endswith_sep a then a else a ++ [sep].

(** The two names [send_build_request] draws in the world [w]. *)
Definition tmp_path (env : Env) (w : World) : pystr :=
  path_join (jobdir (cfg env)) [lit "tmp"; uuid_str (uuid4_int (urandom16 env (drawn w)))].

Definition final_path (env : Env) (w : World) : pystr :=
  path_join (jobdir (cfg env)) [lit "new"; uuid_str (uuid4_int (urandom16 env (S (drawn w))))].

(** The six bits [uuid4] overwrites: the variant (bits 62 and 63) and the
    version (bits 76 to 79). *)
Definition fixed_bits : N := N.lor (N.shiftl 49152 48) (N.shiftl 61440 64).

(** The 122 bits of the entropy that end up in the name. *)
Definition free_bits (random : N) : N := N.ldiff (random mod 2 ^ 128) fixed_bits.

(** What has reached the temporary file of a request: a prefix of it. *)
Definition kept (env : Env) (w : World) (req : bytes) : bytes :=
  take (stored env (tmp_path env w) req) req.

(** ** What the supervisor adds to the trace *)

Definition announce (name : pystr) (w : World) : World :=
  emit (Stdout (lit "Running " ++ name)) w.

Definition after_failure (e : exn) (w : World) : World :=
  emit (Sleep 1) (emit (LogException (lit "Daemon thread %r failed") e) w).

(** Modelled from the spec: the wrapped zero-argument function of the
    testable property is not part of the sources.  It keeps the number of
    its calls so far; its call number [k] (from 0) ends as [behaviour k]
    says and touches nothing else. *)
Definition counting_target (behaviour : nat -> outcome) (calls : nat) (w : World)
    : outcome * nat * World :=
  (behaviour calls, S calls, w).

(** Raises on its first two calls, returns on every later one. *)
Definition fails_twice (k : nat) : outcome :=
  if (k <? 2)%nat then Raised RuntimeError else Returned.

(** ** The events of the status collector *)

(** The description the collector composes for a PR builder. *)
Definition collector_description (evt : RawBuildResult) : pystr :=
  if negb (complete evt) then lit "Auto build in progress on builder " ++ builder_name evt
  else if results_in_0_1 (results evt) then lit "Build succeeded on builder " ++ builder_name evt
  else lit "Build failed on builder " ++ builder_name evt.

Definition collector_status (evt : RawBuildResult) (props : gmap pystr json) : event :=
  EvBuildStatus
    {| bs_repo := ObjectLike_getattr props (lit "repo");
       bs_hash := ObjectLike_getattr props (lit "headrev");
       bs_shortrev := ObjectLike_getattr props (lit "shortrev");
       bs_service := builder_name evt;
       bs_pr := ObjectLike_getattr props (lit "pr_id");
       bs_success := results_in_0_1 (results evt);
       bs_pending := negb (complete evt);
       bs_url := url evt;
       bs_description := collector_description evt |}.

Definition collector_confirmation (evt : RawBuildResult) (props : gmap pystr json)
    : event :=
  EvFifoCIStatus
    {| fifo_repo := ObjectLike_getattr props (lit "repo");
       fifo_hash := ObjectLike_getattr props (lit "headrev");
       fifo_service := builder_name evt;
       fifo_pr := ObjectLike_getattr props (lit "pr_id") |}.

(** ** A concrete scene: two builders, one pull request *)

Definition sample_cfg : Config :=
  {| pr_builders := [lit "linux"; lit "win"];
     fifoci_builders := [lit "fifoci-ogl"];
     jobdir := lit "/srv/jobs";
     buildbot_url := lit "https://buildbot.example/" |}.

Definition sample_pull (m : option bool) : PullRequestJson :=
  {| mergeable := m;
     mergeable_state := lit "clean";
     base_sha := lit "0f9e8d7c6b";
     head_sha := lit "a1b2c3d4e5f6" |}.

(** The host answers every request with [answer]; the operating system
    refuses nothing and loses nothing. *)
Definition sample_env (answer : res PullRequestJson) : Env :=
  {| cfg := sample_cfg;
     requests_get_json := fun _ => answer;
     urandom16 := fun k => N.of_nat (7 + 11 * k);
     may_open_wb := fun _ => true;
     may_write := fun _ _ => true;
     stored := fun _ data => length data;
     may_rename := fun _ _ => true |}.

Definition empty_world : World := {| files := ∅; drawn := 0; trace := [] |}.

Definition sample_trigger (trusted : bool) : BuildTrigger :=
  {| in_behalf_of := lit "alice"; trusted := trusted; repo := lit "owner/name"; pr_id := 42 |}.

(** A raw result as the farm sends it: every property is a list whose
    first element is the value. *)
Definition sample_result (builder : pystr) (complete : bool) (results : json)
    (properties : gmap pystr (list json)) : RawBuildResult :=
  {| builder_name := builder; complete := complete; results := results;
     url := lit "https://buildbot.example/builders/1";
     properties := properties |}.

Definition revision_properties : gmap pystr (list json) :=
  {[ lit "headrev" := [JStr (lit "a1b2c3d4e5f6"); JStr (lit "Change")];
     lit "repo" := [JStr (lit "owner/name"); JStr (lit "Change")];
     lit "shortrev" := [JStr (lit "a1b2c3"); JStr (lit "Change")] ]}.

Definition full_properties : gmap pystr (list json) :=
  <[ lit "pr_id" := [JInt 42; JStr (lit "Change")] ]> revision_properties.

Definition unrelated_properties : gmap pystr (list json) :=
  {[ lit "headrev" := [JStr (lit "a1b2c3d4e5f6"); JStr (lit "Change")];
     lit "repo" := [JStr (lit "owner/name"); JStr (lit "Change")] ]}.

(** ** What the further theorems speak about *)

(** The requests sent to the source-control host, in order. *)
Fixpoint http_requests (tr : list effect) : list pystr :=
  match tr with
  | [] => []
  | HttpGet url :: tr' => url :: http_requests tr'
  | _ :: tr' => http_requests tr'
  end.

(** The failures the supervisor has logged, in order. *)
Fixpoint logged_failures (tr : list effect) : list exn :=
  match tr with
  | [] => []
  | LogException _ e :: tr' => e :: logged_failures tr'
  | _ :: tr' => logged_failures tr'
  end.

(** A character of a printed UUID: a dash, a digit or a letter from [a] to
    [f]. *)
Definition is_uuid_char (c : N) : Prop :=
  c = 45 \/ (48 <= c /\ c <= 57) \/ (97 <= c /\ c <= 102).

(** The status events of one trigger and the pull request fetched for it:
    topic [prbuilder], the trigger's repository and pull-request id, the
    head revision of the fetched pull request and its first six
    characters. *)
Definition status_of_trigger (t : BuildTrigger) (pr : PullRequestJson)
    (te : pystr * event) : Prop :=
  fst te = lit "prbuilder" /\
  exists b, snd te = EvBuildStatus b /\
    bs_repo b = Val (JStr (repo t)) /\ bs_pr b = Val (JInt (pr_id t)) /\
    bs_hash b = Val (JStr (head_sha pr)) /\
    bs_shortrev b = Val (JStr (take 6 (head_sha pr))).

(** A call that neither blocks nor raises past [except Exception]. *)
Definition comes_back (o : outcome) : Prop :=
  match o with
  | Returned => True
  | Raised e => is_Exception e = true
  | Blocked => False
  end.

(** What [DaemonThread.run] adds to the trace in the round of a call that
    ended as [o]. *)
Definition daemon_round (name : pystr) (o : outcome) : list effect :=
  Stdout (lit "Running " ++ name) ::
  match o with
  | Raised e => [LogException (lit "Daemon thread %r failed") e; Sleep 1]
  | _ => []
  end.

(** What the periodic wrapper adds after a call that ended as [o], when [f]
    has a name and the sleep is taken. *)
Definition periodic_round (interval : Z) (o : outcome) : list effect :=
  match o with
  | Raised e => [LogException (lit "Periodic task %s failed") e; Sleep interval]
  | _ => [Sleep interval]
  end.

(** The same when [time.sleep(interval)] raises [e]: the supervisor logs
    [e], sleeps one second and enters the wrapper again. *)
Definition periodic_round_unslept (wrapper_str : pystr) (e : exn) (o : outcome)
    : list effect :=
  Stdout (lit "Running " ++ wrapper_str) ::
  match o with
  | Raised e' => [LogException (lit "Periodic task %s failed") e']
  | _ => []
  end ++ [LogException (lit "Daemon thread %r failed") e; Sleep 1].

(** The round of a failed call of an [f] without a name: the failure of [f]
    is not logged, the [AttributeError] of the handler is. *)
Definition periodic_round_nameless (wrapper_str : pystr) : list effect :=
  [Stdout (lit "Running " ++ wrapper_str);
   LogException (lit "Daemon thread %r failed") AttributeError; Sleep 1].

(** * Properties of the wire encoder *)

Lemma encode_ascii_uint_digits d : encode_ascii (uint_digits d) = Return (uint_bytes d).
Proof. induction d; simpl; [reflexivity | rewrite IHd; reflexivity ..]. Qed.

Lemma to_int_of_nat n : Z.to_int (Z.of_nat n) = Decimal.Pos (N.to_uint (N.of_nat n)).
Proof. destruct n; reflexivity. Qed.

Lemma str_int_len {A} (s : list A) :
  str_int (len s) = uint_digits (N.to_uint (N.of_nat (length s))).
Proof. unfold str_int, len. rewrite to_int_of_nat. reflexivity. Qed.

Lemma make_netstring_eq (s : bytes) :
  make_netstring s = Return (length_digits s ++ [colon] ++ s ++ [comma]).
Proof.
  unfold make_netstring. rewrite str_int_len, encode_ascii_uint_digits.
  reflexivity.
Qed.

Lemma read_length_uint_bytes d rest :
  read_length (uint_bytes d ++ colon :: rest) = Some (d, rest).
Proof.
  induction d; simpl; [reflexivity | rewrite IHd; reflexivity ..].
Qed.

Lemma uint_bytes_no_comma d : Forall (fun b => b <> comma /\ b <> colon) (uint_bytes d).
Proof.
  induction d; simpl; constructor; try assumption; split; discriminate.
Qed.

Lemma parse_netstring_header d (s rest : bytes) :
  N.to_nat (N.of_uint d) = length s ->
  parse_netstring (uint_bytes d ++ [colon] ++ s ++ [comma] ++ rest) = Some (s, rest).
Proof.
  intros Hn. unfold parse_netstring. simpl app.
  rewrite read_length_uint_bytes, Hn.
  rewrite drop_app_length, take_app_length. reflexivity.
Qed.

Lemma length_digits_value (s : bytes) :
  N.to_nat (N.of_uint (N.to_uint (N.of_nat (length s)))) = length s.
Proof. rewrite DecimalN.Unsigned.of_to. apply Nat2N.id. Qed.

Lemma parse_make_netstring (s rest : bytes) :
  parse_netstring (length_digits s ++ [colon] ++ s ++ [comma] ++ rest) = Some (s, rest).
Proof. apply parse_netstring_header, length_digits_value. Qed.

(** C9, as amended.  [make_netstring s] is the decimal length of [s], a
    colon, [s] and a comma, and nothing else; the reader gets [s] back
    (and whatever follows the netstring is left untouched); the header in
    front of the payload holds no comma and no colon, and the byte at the
    declared end of the payload is the closing comma.  Commas inside the
    payload are copied as they are. *)
Theorem make_netstring_framing (s rest : bytes) :
  let header := length_digits s in
  let out := header ++ [colon] ++ s ++ [comma] in
  make_netstring s = Return out /\
  parse_netstring (out ++ rest) = Some (s, rest) /\
  Forall (fun b => b <> comma /\ b <> colon) header /\
  take (length s) (drop (length header + 1) out) = s /\
  out !! (length header + 1 + length s)%nat = Some comma /\
  length out = (length header + 1 + length s + 1)%nat.
Proof.
  intros header out. subst out header.
  split; [apply make_netstring_eq|].
  split.
  { rewrite <- !app_assoc. apply parse_make_netstring. }
  split; [apply uint_bytes_no_comma|].
  split.
  { replace (length (length_digits s) + 1)%nat
      with (length (length_digits s ++ [colon])) by (rewrite length_app; reflexivity).
    rewrite (app_assoc (length_digits s) [colon]), drop_app_length.
    apply take_app_length. }
  split.
  { replace (length (length_digits s) + 1 + length s)%nat
      with (length (length_digits s ++ [colon] ++ s))
      by (rewrite !length_app; simpl; lia).
    rewrite !app_assoc, <- (app_assoc _ [colon] s).
    apply list_lookup_middle. reflexivity. }
  rewrite !length_app. simpl. lia.
Qed.

(** C9, the claim as written fails: in the netstring of the one-byte
    payload [","] the byte at offset 2 is a comma, and it stands before the
    payload ends (the payload ends at offset 3). *)
Lemma make_netstring_comma_in_payload :
  make_netstring [comma] = Return [x31; colon; comma; comma] /\
  [x31; colon; comma; comma] !! 2%nat = Some comma /\
  (2 < length (length_digits [comma]) + 1 + length [comma])%nat.
Proof. split; [reflexivity|]. split; [reflexivity|]. vm_compute. lia. Qed.

(** ** [json.dumps] yields ASCII, so [encode('ascii')] cannot raise *)

Lemma is_ascii_app s1 s2 : is_ascii s1 -> is_ascii s2 -> is_ascii (s1 ++ s2).
Proof. unfold is_ascii. intros. apply Forall_app. split; assumption. Qed.

Lemma hexdigit_ascii d : d < 16 -> hexdigit d < 128.
Proof. unfold hexdigit. intros. destruct (d <? 10); lia. Qed.

Lemma nibble_bound n : N.land n 15 < 16.
Proof.
  change 15 with (N.ones 4). rewrite N.land_ones.
  apply N.mod_lt. discriminate.
Qed.

Lemma hex_digits_ascii n i : is_ascii (hex_digits n i).
Proof.
  induction n as [|n IH]; simpl; constructor; [|exact IH].
  apply hexdigit_ascii, nibble_bound.
Qed.

Lemma escape_u_ascii n : is_ascii (escape_u n).
Proof.
  unfold escape_u. apply is_ascii_app; [|apply hex_digits_ascii].
  repeat constructor.
Qed.

Lemma escape_char_ascii c : is_ascii (escape_char c).
Proof.
  unfold escape_char.
  repeat (match goal with |- context [if ?b then _ else _] => destruct b eqn:? end;
          [try (repeat constructor; fail)|]);
    try (apply escape_u_ascii).
  - constructor; [|constructor].
    match goal with H : _ && _ = true |- _ => apply andb_prop in H as [_ H] end.
    match goal with H : (c <=? 126) = true |- _ => apply N.leb_le in H end. lia.
  - apply is_ascii_app; apply escape_u_ascii.
Qed.

Lemma encode_basestring_ascii_ascii s : is_ascii (encode_basestring_ascii s).
Proof.
  unfold encode_basestring_ascii.
  apply is_ascii_app; [repeat constructor|].
  apply is_ascii_app; [|repeat constructor].
  induction s as [|c s IH]; simpl; [constructor|].
  apply is_ascii_app; [apply escape_char_ascii | exact IH].
Qed.

Lemma uint_digits_ascii d : is_ascii (uint_digits d).
Proof. induction d; simpl; constructor; (reflexivity || assumption). Qed.

Lemma str_int_ascii z : is_ascii (str_int z).
Proof.
  unfold str_int. destruct (Z.to_int z); [|constructor; [reflexivity|]];
    apply uint_digits_ascii.
Qed.

Lemma str_join_ascii sep chunks :
  is_ascii sep -> Forall is_ascii chunks -> is_ascii (str_join sep chunks).
Proof.
  intros Hsep. induction 1 as [|c rest Hc Hrest IH]; [constructor|].
  destruct rest as [|c' rest]; [exact Hc|].
  change (is_ascii (c ++ sep ++ str_join sep (c' :: rest))).
  auto using is_ascii_app.
Qed.

Lemma json_dumps_ascii j : is_ascii (json_dumps j).
Proof.
  induction j as [| b | z | s | l IH | items IH] using json_nested_ind.
  - ascii_literal.
  - destruct b; ascii_literal.
  - apply str_int_ascii.
  - apply encode_basestring_ascii_ascii.
  - cbn [json_dumps].
    apply is_ascii_app; [ascii_literal|].
    apply is_ascii_app; [|ascii_literal].
    apply str_join_ascii; [ascii_literal|].
    apply Forall_map. exact IH.
  - cbn [json_dumps].
    apply is_ascii_app; [ascii_literal|].
    apply is_ascii_app; [|ascii_literal].
    apply str_join_ascii; [ascii_literal|].
    apply Forall_map. eapply Forall_impl; [exact IH|].
    intros [k v] Hv. cbn [fst snd] in *.
    apply is_ascii_app; [apply encode_basestring_ascii_ascii|].
    apply is_ascii_app; [ascii_literal | exact Hv].
Qed.

Lemma encode_ascii_total s :
  is_ascii s -> exists bs, encode_ascii s = Return bs /\ map Byte.to_N bs = s.
Proof.
  induction 1 as [|c s Hc Hs (bs & Hbs & Hmap)]; [exists []; split; reflexivity|].
  simpl. apply N.ltb_lt in Hc as Hc'. rewrite Hc'.
  destruct (Byte.of_N c) as [b|] eqn:Hb.
  - exists (b :: bs). rewrite Hbs. split; [reflexivity|].
    simpl. rewrite Hmap. f_equal. apply Byte.to_of_N. exact Hb.
  - apply Byte.of_N_None_iff in Hb. lia.
Qed.

Lemma make_build_request_total cfg repo pr_id job_id baserev headrev who comment :
  exists encoded,
    encode_ascii (json_dumps (request_dict cfg repo pr_id job_id baserev headrev who comment))
      = Return encoded /\
    map Byte.to_N encoded
      = json_dumps (request_dict cfg repo pr_id job_id baserev headrev who comment) /\
    make_build_request cfg repo pr_id job_id baserev headrev who comment
      = Return ([x31; colon; x35; comma]
                  ++ length_digits encoded ++ [colon] ++ encoded ++ [comma]).
Proof.
  destruct (encode_ascii_total _
              (json_dumps_ascii (request_dict cfg repo pr_id job_id baserev headrev who comment)))
    as (encoded & Henc & Hmap).
  exists encoded. split; [exact Henc|]. split; [exact Hmap|].
  unfold make_build_request. rewrite Henc. cbn [res_bind].
  rewrite (make_netstring_eq encoded). reflexivity.
Qed.

(** ** The monad's equations *)

Lemma trace_emit_all es w : trace (emit_all es w) = trace w ++ es.
Proof.
  revert w. induction es as [|e es IH]; intros w; simpl.
  - symmetry. apply app_nil_r.
  - unfold emit_all in IH. rewrite IH. simpl. rewrite <- app_assoc. reflexivity.
Qed.

Lemma files_emit_all es w : files (emit_all es w) = files w.
Proof. revert w. induction es as [|e es IH]; intros w; simpl; [|rewrite IH]; reflexivity. Qed.

Lemma drawn_emit_all es w : drawn (emit_all es w) = drawn w.
Proof. revert w. induction es as [|e es IH]; intros w; simpl; [|rewrite IH]; reflexivity. Qed.

Lemma emit_all_app es1 es2 w : emit_all (es1 ++ es2) w = emit_all es2 (emit_all es1 w).
Proof. apply fold_left_app. Qed.

Lemma for_each_dispatch {A} (l : list A) topic (f : A -> event) w :
  for_each l (fun x => dispatch topic (f x)) w
  = (Return tt, emit_all (map (fun x => Dispatch topic (f x)) l) w).
Proof.
  revert w. induction l as [|x l IH]; intros w; [reflexivity|].
  simpl. unfold bind, dispatch, tell at 1. rewrite IH. reflexivity.
Qed.

Lemma dispatched_app tr1 tr2 : dispatched (tr1 ++ tr2) = dispatched tr1 ++ dispatched tr2.
Proof.
  induction tr1 as [|e tr1 IH]; [reflexivity|].
  destruct e; simpl; rewrite IH; reflexivity.
Qed.

Lemma syscalls_app tr1 tr2 : syscalls (tr1 ++ tr2) = syscalls tr1 ++ syscalls tr2.
Proof.
  induction tr1 as [|e tr1 IH]; [reflexivity|].
  destruct e; simpl; rewrite IH; reflexivity.
Qed.

Lemma dispatched_map_Dispatch {A} topic (f : A -> event) (l : list A) :
  dispatched (map (fun x => Dispatch topic (f x)) l) = map (fun x => (topic, f x)) l.
Proof. induction l as [|x l IH]; simpl; [|rewrite IH]; reflexivity. Qed.

Lemma syscalls_map_Dispatch {A} topic (f : A -> event) (l : list A) :
  syscalls (map (fun x => Dispatch topic (f x)) l) = [].
Proof. induction l as [|x l IH]; [reflexivity | exact IH]. Qed.

(** ** Dispatch worker: the three ways through one trigger *)

Section Dispatch.

Variable env : Env.
Variable t : BuildTrigger.
Variable pr : PullRequestJson.
Hypothesis Hfetch : requests_get_json env (pull_request_url (repo t) (pr_id t)) = Return pr.

Lemma step_untrusted w :
  trusted t = false ->
  PullRequestBuilder_step env t w
  = (Return tt, emit_all (preamble t pr ++ [Dispatch (lit "prbuilder") (untrusted_event t pr)]) w).
Proof.
  intros Ht. unfold PullRequestBuilder_step, bind, tell, lift, logging_info, dispatch.
  rewrite Hfetch, Ht. reflexivity.
Qed.

Lemma step_unmergeable w :
  trusted t = true -> mergeable pr = Some false ->
  PullRequestBuilder_step env t w
  = (Return tt, emit_all (preamble t pr ++ [Dispatch (lit "prbuilder") (unmergeable_event t pr)]) w).
Proof.
  intros Ht Hm. unfold PullRequestBuilder_step, bind, tell, lift, logging_info, dispatch.
  rewrite Hfetch, Ht. rewrite bool_decide_eq_true_2 by exact Hm. reflexivity.
Qed.

Lemma step_proceeds w :
  trusted t = true -> mergeable pr <> Some false ->
  exists req,
    make_build_request (cfg env) (repo t) (pr_id t)
      (str_int (pr_id t) ++ lit "-" ++ take 6 (head_sha pr))
      (base_sha pr) (head_sha pr)
      (lit "Central (on behalf of: " ++ in_behalf_of t ++ lit ")")
      (lit "Auto build for PR #" ++ str_int (pr_id t) ++ lit " ("
         ++ head_sha pr ++ lit ").") = Return req /\
    PullRequestBuilder_step env t w
    = send_build_request env req
        (emit_all (preamble t pr ++ Dispatch (lit "prbuilder") (aggregate_event t pr)
                     :: map (fun b => Dispatch (lit "prbuilder") (pending_event env t pr b))
                          (pr_builders (cfg env))) w).
Proof.
  intros Ht Hm.
  destruct (make_build_request_total (cfg env) (repo t) (pr_id t)
              (str_int (pr_id t) ++ lit "-" ++ take 6 (head_sha pr))
              (base_sha pr) (head_sha pr)
              (lit "Central (on behalf of: " ++ in_behalf_of t ++ lit ")")
              (lit "Auto build for PR #" ++ str_int (pr_id t) ++ lit " ("
                 ++ head_sha pr ++ lit ")."))
    as (encoded & _ & _ & Hreq).
  eexists. split; [exact Hreq|].
  unfold PullRequestBuilder_step.
  unfold bind at 1 2 3 4 5. unfold tell at 1, lift at 1, logging_info at 1, tell at 1.
  rewrite Hfetch, Ht. cbn [negb].
  rewrite bool_decide_eq_false_2 by exact Hm.
  unfold dispatch at 1, tell at 1.
  rewrite for_each_dispatch.
  unfold bind at 1, lift at 1. rewrite Hreq.
  rewrite emit_all_app. reflexivity.
Qed.

End Dispatch.

(** ** Job submitter *)

Section Submit.

Variable env : Env.

(** The four ways [send_build_request] can end. *)
Lemma send_build_request_cases (req : bytes) (w : World) :
  (may_open_wb env (tmp_path env w) = false /\
   send_build_request env req w
   = (Raise OSError, {| files := files w; drawn := S (drawn w); trace := trace w |}))
  \/
  (may_open_wb env (tmp_path env w) = true /\
   may_write env (tmp_path env w) req = false /\
   send_build_request env req w
   = (Raise OSError,
      {| files := <[tmp_path env w := kept env w req]> (<[tmp_path env w := []]> (files w));
         drawn := S (drawn w);
         trace := (trace w ++ [SysOpen (tmp_path env w)]) ++ [SysWrite (tmp_path env w) req] |}))
  \/
  (may_open_wb env (tmp_path env w) = true /\
   may_write env (tmp_path env w) req = true /\
   may_rename env (tmp_path env w) (final_path env w) = false /\
   send_build_request env req w
   = (Raise OSError,
      {| files := <[tmp_path env w := kept env w req]> (<[tmp_path env w := []]> (files w));
         drawn := S (S (drawn w));
         trace := (trace w ++ [SysOpen (tmp_path env w)]) ++ [SysWrite (tmp_path env w) req] |}))
  \/
  (may_open_wb env (tmp_path env w) = true /\
   may_write env (tmp_path env w) req = true /\
   may_rename env (tmp_path env w) (final_path env w) = true /\
   send_build_request env req w
   = (Return tt,
      {| files := <[final_path env w := kept env w req]>
                    (delete (tmp_path env w)
                       (<[tmp_path env w := kept env w req]>
                          (<[tmp_path env w := []]> (files w))));
         drawn := S (S (drawn w));
         trace := (((trace w ++ [SysOpen (tmp_path env w)]) ++ [SysWrite (tmp_path env w) req])
                     ++ [SysRename (tmp_path env w) (final_path env w)])
                    ++ [LogInfo (lit "Sent build request: %r") [Val (JStr (final_path env w))]] |})).
Proof.
  unfold send_build_request, bind, uuid4, open_wb, file_write, os_rename, logging_info, tell.
  fold (tmp_path env w). cbn [drawn files trace emit set_files].
  destruct (may_open_wb env (tmp_path env w)) eqn:Hopen; [|left; split; reflexivity].
  right. cbn [drawn files trace emit set_files].
  rewrite lookup_insert_eq. cbn [drawn files trace emit set_files app].
  fold (kept env w req).
  destruct (may_write env (tmp_path env w) req) eqn:Hwrite;
    [|left; split; [reflexivity|]; split; reflexivity].
  right. cbn [drawn files trace emit set_files].
  fold (final_path env w). rewrite lookup_insert_eq.
  destruct (may_rename env (tmp_path env w) (final_path env w)) eqn:Hren.
  - right. split; [reflexivity|]. split; [reflexivity|]. split; reflexivity.
  - left. split; [reflexivity|]. split; [reflexivity|]. split; reflexivity.
Qed.

Lemma startswith_sep_uuid_str x : startswith_sep (uuid_str x) = false.
Proof.
  unfold uuid_str. cbn [hex_digits take drop app startswith_sep].
  pose proof (nibble_bound (N.shiftr x (4 * N.of_nat 31))) as Hd.
  unfold hexdigit, sep.
  destruct (N.land (N.shiftr x (4 * N.of_nat 31)) 15 <? 10) eqn:Hlt;
    apply N.eqb_neq; [apply N.ltb_lt in Hlt|]; lia.
Qed.

Lemma path_join_subdir (a d u : pystr) (c : N) :
  startswith_sep d = false -> last d = Some c -> c <> sep ->
  startswith_sep u = false ->
  path_join a [d; u] = dir_prefix a ++ d ++ [sep] ++ u.
Proof.
  intros Hd Hlast Hc Hu. unfold path_join, dir_prefix. cbn [fold_left].
  rewrite Hd, Hu.
  assert (Hend : forall p, endswith_sep (p ++ d) = false).
  { intros p. unfold endswith_sep. rewrite last_app, Hlast. apply N.eqb_neq, Hc. }
  assert (Hne : forall p, bool_decide (p ++ d = []) = false).
  { intros p. apply bool_decide_eq_false_2. intros Heq.
    apply app_eq_nil in Heq as [_ ->]. discriminate. }
  destruct (bool_decide (a = []) || endswith_sep a).
  - rewrite Hne, Hend. cbn [orb]. rewrite <- !app_assoc. reflexivity.
  - rewrite (app_assoc a [sep] d), Hne, Hend. cbn [orb].
    rewrite <- !app_assoc. reflexivity.
Qed.

Lemma tmp_path_eq w :
  tmp_path env w = dir_prefix (jobdir (cfg env)) ++ lit "tmp" ++ [sep]
                 ++ uuid_str (uuid4_int (urandom16 env (drawn w))).
Proof.
  apply (path_join_subdir _ _ _ 112);
    [reflexivity | reflexivity | discriminate | apply startswith_sep_uuid_str].
Qed.

Lemma final_path_eq w :
  final_path env w = dir_prefix (jobdir (cfg env)) ++ lit "new" ++ [sep]
                   ++ uuid_str (uuid4_int (urandom16 env (S (drawn w)))).
Proof.
  apply (path_join_subdir _ _ _ 119);
    [reflexivity | reflexivity | discriminate | apply startswith_sep_uuid_str].
Qed.

(** The temporary name and the final name differ, whatever is drawn: one
    lies under [tmp], the other under [new]. *)
Lemma tmp_path_neq_final_path w : tmp_path env w <> final_path env w.
Proof.
  rewrite tmp_path_eq, final_path_eq. intros Heq.
  apply app_inv_head in Heq. discriminate Heq.
Qed.

End Submit.

Lemma send_build_request_success env (encoded : bytes) (w w' : World) :
  send_build_request env encoded w = (Return tt, w') ->
  w' = {| files := <[final_path env w := kept env w encoded]>
                     (delete (tmp_path env w)
                        (<[tmp_path env w := kept env w encoded]>
                           (<[tmp_path env w := []]> (files w))));
          drawn := S (S (drawn w));
          trace := (((trace w ++ [SysOpen (tmp_path env w)])
                       ++ [SysWrite (tmp_path env w) encoded])
                      ++ [SysRename (tmp_path env w) (final_path env w)])
                     ++ [LogInfo (lit "Sent build request: %r")
                           [Val (JStr (final_path env w))]] |}.
Proof.
  intros Hok.
  destruct (send_build_request_cases env encoded w)
    as [[_ H] | [(_ & _ & H) | [(_ & _ & _ & H) | (_ & _ & _ & H)]]];
    rewrite H in Hok.
  - apply (f_equal fst) in Hok. discriminate Hok.
  - apply (f_equal fst) in Hok. discriminate Hok.
  - apply (f_equal fst) in Hok. discriminate Hok.
  - apply (f_equal snd) in Hok. symmetry. exact Hok.
Qed.

(** When all of the request got through, it is what the file holds. *)
Lemma kept_all env (w : World) (req : bytes) :
  (length req <= stored env (tmp_path env w) req)%nat -> kept env w req = req.
Proof. intros H. unfold kept. apply take_ge. exact H. Qed.

(** The names are as fresh as the entropy *)

Lemma lor_lt_pow2 a b n : a < 2 ^ n -> b < 2 ^ n -> N.lor a b < 2 ^ n.
Proof.
  intros Ha Hb.
  destruct (N.eq_dec (N.lor a b) 0) as [Hz|Hnz]; [rewrite Hz; lia|].
  apply N.log2_lt_pow2; [lia|]. rewrite N.log2_lor.
  assert (Hl : forall x, x < 2 ^ n -> x <> 0 -> N.log2 x < n).
  { intros x Hx Hx0. apply N.log2_lt_pow2; lia. }
  destruct (N.eq_dec a 0) as [->|Ha0]; destruct (N.eq_dec b 0) as [->|Hb0];
    try (exfalso; apply Hnz; reflexivity).
  - rewrite N.max_r by apply N.le_0_l. apply Hl; assumption.
  - rewrite N.max_l by apply N.le_0_l. apply Hl; assumption.
  - apply N.max_lub_lt; apply Hl; assumption.
Qed.

Lemma uuid4_int_bound random : uuid4_int random < 2 ^ 128.
Proof.
  unfold uuid4_int.
  apply lor_lt_pow2; [|reflexivity].
  eapply N.le_lt_trans; [apply N.ldiff_le_l|].
  apply lor_lt_pow2; [|reflexivity].
  eapply N.le_lt_trans; [apply N.ldiff_le_l|].
  apply N.mod_lt. discriminate.
Qed.


Lemma uuid4_int_free_bits random :
  uuid4_int random = N.lor (free_bits random) (N.lor (N.shiftl 32768 48) (N.shiftl 4 76)).
Proof.
  unfold uuid4_int, free_bits, fixed_bits. cbv zeta.
  apply N.bits_inj. intros i.
  repeat (rewrite N.lor_spec || rewrite N.ldiff_spec).
  assert (H1 : N.testbit (N.shiftl 32768 48) i
               = N.testbit (N.shiftl 32768 48) i && N.testbit (N.shiftl 49152 48) i
                 && negb (N.testbit (N.shiftl 61440 64) i)).
  { rewrite <- N.land_spec, <- N.ldiff_spec. reflexivity. }
  assert (H2 : N.testbit (N.shiftl 4 76) i
               = N.testbit (N.shiftl 4 76) i && N.testbit (N.shiftl 61440 64) i).
  { rewrite <- N.land_spec. reflexivity. }
  destruct (N.testbit (random mod 2 ^ 128) i), (N.testbit (N.shiftl 49152 48) i),
    (N.testbit (N.shiftl 61440 64) i), (N.testbit (N.shiftl 32768 48) i),
    (N.testbit (N.shiftl 4 76) i); cbn in *; congruence.
Qed.

Lemma uuid4_int_inj r1 r2 : uuid4_int r1 = uuid4_int r2 <-> free_bits r1 = free_bits r2.
Proof.
  rewrite !uuid4_int_free_bits. split; [|intros ->; reflexivity].
  assert (Hc : forall i, N.testbit (N.lor (N.shiftl 32768 48) (N.shiftl 4 76)) i
                 = N.testbit (N.lor (N.shiftl 32768 48) (N.shiftl 4 76)) i
                   && N.testbit fixed_bits i).
  { intros i. rewrite <- N.land_spec. reflexivity. }
  set (forced := N.lor (N.shiftl 32768 48) (N.shiftl 4 76)) in *.
  intros Heq. apply N.bits_inj. intros i.
  apply (f_equal (fun n => N.testbit n i)) in Heq. rewrite !N.lor_spec in Heq.
  specialize (Hc i). unfold free_bits in *. rewrite !N.ldiff_spec in *.
  destruct (N.testbit fixed_bits i); [rewrite !andb_false_r; reflexivity|].
  rewrite andb_false_r in Hc. rewrite Hc, !orb_false_r in Heq. exact Heq.
Qed.

Lemma hexdigit_inj d1 d2 : d1 < 16 -> d2 < 16 -> hexdigit d1 = hexdigit d2 -> d1 = d2.
Proof.
  unfold hexdigit. intros H1 H2.
  destruct (d1 <? 10) eqn:E1, (d2 <? 10) eqn:E2;
    try apply N.ltb_lt in E1; try apply N.ltb_lt in E2;
    try apply N.ltb_ge in E1; try apply N.ltb_ge in E2; lia.
Qed.

Lemma hex_digits_inj n a b :
  hex_digits n a = hex_digits n b ->
  forall i, i < 4 * N.of_nat n -> N.testbit a i = N.testbit b i.
Proof.
  induction n as [|n IH]; intros Heq i Hi; [lia|].
  cbn [hex_digits] in Heq. injection Heq as Hd Hrest.
  apply hexdigit_inj in Hd; [|apply nibble_bound ..].
  destruct (N.lt_ge_cases i (4 * N.of_nat n)) as [Hlow|Hhigh]; [apply IH; assumption|].
  apply (f_equal (fun x => N.testbit x (i - 4 * N.of_nat n))) in Hd.
  rewrite !N.land_spec, !N.shiftr_spec' in Hd.
  replace (i - 4 * N.of_nat n + 4 * N.of_nat n) with i in Hd by lia.
  change 15 with (N.ones 4) in Hd. rewrite N.ones_spec_low in Hd by lia.
  rewrite !andb_true_r in Hd. exact Hd.
Qed.

Lemma uuid_str_inj a b : a < 2 ^ 128 -> b < 2 ^ 128 -> uuid_str a = uuid_str b -> a = b.
Proof.
  intros Ha Hb Heq.
  assert (Hhex : hex_digits 32 a = hex_digits 32 b).
  { unfold uuid_str in Heq. cbn [hex_digits take drop app] in Heq.
    cbn [hex_digits]. injection Heq. intros. congruence. }
  apply N.bits_inj. intros i.
  destruct (N.lt_ge_cases i 128) as [Hlow|Hhigh].
  - apply (hex_digits_inj 32 a b Hhex). exact Hlow.
  - rewrite <- (N.mod_small a (2 ^ 128)), <- (N.mod_small b (2 ^ 128)) by assumption.
    rewrite !N.mod_pow2_bits_high by exact Hhigh. reflexivity.
Qed.

(** Two draws give the same name exactly when they agree on the 122 bits
    that [uuid4] keeps. *)
Lemma uuid4_name_inj r1 r2 :
  uuid_str (uuid4_int r1) = uuid_str (uuid4_int r2) <-> free_bits r1 = free_bits r2.
Proof.
  rewrite <- uuid4_int_inj. split; [|intros ->; reflexivity].
  apply uuid_str_inj; apply uuid4_int_bound.
Qed.

Lemma tmp_path_reused env (w0 w : World) :
  tmp_path env w0 = tmp_path env w
  <-> free_bits (urandom16 env (drawn w0)) = free_bits (urandom16 env (drawn w)).
Proof.
  rewrite !tmp_path_eq, <- uuid4_name_inj. split; [|intros ->; reflexivity].
  intros Heq. apply app_inv_head in Heq. apply (app_inv_head (lit "tmp" ++ [sep])) in Heq.
  exact Heq.
Qed.

Lemma final_path_reused env (w0 w : World) :
  final_path env w0 = final_path env w
  <-> free_bits (urandom16 env (S (drawn w0))) = free_bits (urandom16 env (S (drawn w))).
Proof.
  rewrite !final_path_eq, <- uuid4_name_inj. split; [|intros ->; reflexivity].
  intros Heq. apply app_inv_head in Heq. apply (app_inv_head (lit "new" ++ [sep])) in Heq.
  exact Heq.
Qed.


Lemma send_build_request_quiet env (req : bytes) (w : World) :
  dispatched (trace (snd (send_build_request env req w))) = dispatched (trace w).
Proof.
  destruct (send_build_request_cases env req w)
    as [[_ H] | [(_ & _ & H) | [(_ & _ & _ & H) | (_ & _ & _ & H)]]];
    rewrite H; cbn [snd trace]; rewrite ?dispatched_app; cbn [dispatched];
    rewrite ?app_nil_r; reflexivity.
Qed.





(** C2, as amended.  For a trigger with [trusted = False]: when the fetch of
    the pull request succeeds, the worker dispatches exactly one event
    (builder [default], not successful, not pending, "PR not built because
    <requester> is not auto-trusted."); when the fetch raises, the exception
    leaves the loop body and nothing is dispatched.  In both cases no job is
    submitted: no file-system call is made, no name is drawn and the files
    are as before. *)
Theorem dispatch_worker_untrusted env t w (Htrusted : trusted t = false) :
  (forall pr,
     requests_get_json env (pull_request_url (repo t) (pr_id t)) = Return pr ->
     PullRequestBuilder_step env t w
     = (Return tt,
        emit_all (preamble t pr ++ [Dispatch (lit "prbuilder") (untrusted_event t pr)]) w) /\
     dispatched (trace (snd (PullRequestBuilder_step env t w)))
     = dispatched (trace w) ++ [(lit "prbuilder", untrusted_event t pr)] /\
     exists e, untrusted_event t pr = EvBuildStatus e /\
       bs_service e = lit "default" /\ bs_success e = false /\ bs_pending e = false /\
       bs_description e
       = lit "PR not built because " ++ in_behalf_of t ++ lit " is not auto-trusted.") /\
  (forall e,
     requests_get_json env (pull_request_url (repo t) (pr_id t)) = Raise e ->
     PullRequestBuilder_step env t w
     = (Raise e, emit (HttpGet (pull_request_url (repo t) (pr_id t))) w) /\
     dispatched (trace (snd (PullRequestBuilder_step env t w))) = dispatched (trace w)) /\
  syscalls (trace (snd (PullRequestBuilder_step env t w))) = syscalls (trace w) /\
  files (snd (PullRequestBuilder_step env t w)) = files w /\
  drawn (snd (PullRequestBuilder_step env t w)) = drawn w.
Proof.
  assert (Hraise : forall e,
            requests_get_json env (pull_request_url (repo t) (pr_id t)) = Raise e ->
            PullRequestBuilder_step env t w
            = (Raise e, emit (HttpGet (pull_request_url (repo t) (pr_id t))) w)).
  { intros e He. unfold PullRequestBuilder_step, bind, tell, lift. rewrite He. reflexivity. }
  split; [|split].
  - intros pr Hfetch. rewrite (step_untrusted env t pr Hfetch w Htrusted). cbn [snd].
    rewrite trace_emit_all, dispatched_app.
    split; [reflexivity|]. split; [f_equal|].
    eexists. repeat split.
  - intros e He. rewrite (Hraise e He). split; [reflexivity|]. cbn [snd emit trace].
    rewrite dispatched_app. apply app_nil_r.
  - destruct (requests_get_json env (pull_request_url (repo t) (pr_id t))) as [pr|e] eqn:Hfetch.
    + rewrite (step_untrusted env t pr Hfetch w Htrusted). cbn [snd].
      rewrite trace_emit_all, files_emit_all, drawn_emit_all, syscalls_app.
      split; [apply app_nil_r|]. split; reflexivity.
    + rewrite (Hraise e eq_refl). cbn [snd emit trace files drawn].
      rewrite syscalls_app. split; [apply app_nil_r|]. split; reflexivity.
Qed.

Lemma dispatch_worker_untrusted_witness :
  let env := sample_env (Return (sample_pull (Some true))) in
  let t := sample_trigger false in
  dispatched (trace (snd (PullRequestBuilder_step env t empty_world)))
  = [(lit "prbuilder", untrusted_event t (sample_pull (Some true)))] /\
  files (snd (PullRequestBuilder_step env t empty_world)) = ∅.
Proof.
  intros env t.
  destruct (dispatch_worker_untrusted env t empty_world eq_refl) as (H & _ & _ & Hf & _).
  destruct (H (sample_pull (Some true)) eq_refl) as (_ & Hd & _).
  split; [exact Hd | exact Hf].
Defined.

(** C2, the claim as written fails: when the request to the host fails, a
    trigger with [trusted = False] gets no event at all. *)
Lemma dispatch_worker_untrusted_fetch_fails :
  trusted (sample_trigger false) = false /\
  PullRequestBuilder_step (sample_env (Raise RequestException)) (sample_trigger false) empty_world
  = (Raise RequestException,
     emit (HttpGet (pull_request_url (lit "owner/name") 42)) empty_world) /\
  dispatched
    (trace (snd (PullRequestBuilder_step (sample_env (Raise RequestException))
                   (sample_trigger false) empty_world))) = [].
Proof. split; [reflexivity|]. split; reflexivity. Qed.



(** ** Supervision of the dispatch worker *)

(** [PullRequestBuilder.run] never returns: it blocks on the empty queue or
    is left by an exception of one loop body, with a shorter queue. *)
Lemma PullRequestBuilder_run_ends env q w :
  (exists w', PullRequestBuilder_run env q w = (Blocked, [], w')) \/
  (exists e q' w' t w0,
     PullRequestBuilder_run env q w = (Raised e, q', w') /\
     (length q' < length q)%nat /\
     PullRequestBuilder_step env t w0 = (Raise e, w')).
Proof.
  revert w. induction q as [|t q IH]; intros w; [left; eexists; reflexivity|].
  cbn [PullRequestBuilder_run].
  destruct (PullRequestBuilder_step env t w) as [[[]|e] w'] eqn:Hstep.
  - destruct (IH w') as [(w'' & H) | (e & q' & w'' & t' & w0 & H & Hlen & Hst)].
    + left. exists w''. exact H.
    + right. exists e, q', w'', t', w0. split; [exact H|]. split; [simpl; lia | exact Hst].
  - right. exists e, q, w', t, w. split; [reflexivity|]. split; [simpl; lia | exact Hstep].
Qed.

(** An exception that leaves the loop body comes from the host's answer or
    from the file system. *)
Lemma PullRequestBuilder_step_raises env t w e w' :
  PullRequestBuilder_step env t w = (Raise e, w') ->
  requests_get_json env (pull_request_url (repo t) (pr_id t)) = Raise e \/ e = OSError.
Proof.
  intros Hstep.
  destruct (requests_get_json env (pull_request_url (repo t) (pr_id t))) as [pr|e0] eqn:Hfetch.
  - right. destruct (trusted t) eqn:Ht.
    + destruct (decide (mergeable pr = Some false)) as [Hm|Hm].
      * rewrite (step_unmergeable env t pr Hfetch w Ht Hm) in Hstep.
        apply (f_equal fst) in Hstep. discriminate Hstep.
      * destruct (step_proceeds env t pr Hfetch w Ht Hm) as (req & _ & Heq).
        rewrite Heq in Hstep.
        destruct (send_build_request_cases env req
                    (emit_all (preamble t pr ++ Dispatch (lit "prbuilder") (aggregate_event t pr)
                                 :: map (fun b => Dispatch (lit "prbuilder") (pending_event env t pr b))
                                      (pr_builders (cfg env))) w))
          as [[_ H] | [(_ & _ & H) | [(_ & _ & _ & H) | (_ & _ & _ & H)]]];
          rewrite H in Hstep; apply (f_equal fst) in Hstep; cbn [fst] in Hstep;
          congruence.
    + rewrite (step_untrusted env t pr Hfetch w Ht) in Hstep.
      apply (f_equal fst) in Hstep. discriminate Hstep.
  - left. unfold PullRequestBuilder_step, bind, tell, lift in Hstep.
    rewrite Hfetch in Hstep. apply (f_equal fst) in Hstep. cbn [fst] in Hstep. congruence.
Qed.

(** C3, as amended.  The loop of [PullRequestBuilder.run] has no handler of
    its own: an exception raised while one trigger is processed ends [run],
    with the later triggers still queued.  [DaemonThread.run] catches it (any
    [Exception]), logs it, sleeps one second and calls [run] again, which
    goes on with the next queued trigger; the failed trigger is not tried
    again.  As long as the host fails only with [Exception]s, the
    supervised thread never dies on a queue: given enough rounds, it
    has taken every trigger and waits on the empty queue. *)
Theorem worker_exception_is_supervised env name t q w e w1
    (Hraise : PullRequestBuilder_step env t (announce name w) = (Raise e, w1))
    (Hexc : is_Exception e = true) :
  PullRequestBuilder_run env (t :: q) (announce name w) = (Raised e, q, w1) /\
  (forall fuel,
     DaemonThread_run (PullRequestBuilder_run env) name (S fuel) (t :: q) w
     = DaemonThread_run (PullRequestBuilder_run env) name fuel q (after_failure e w1)) /\
  ((forall url e', requests_get_json env url = Raise e' -> is_Exception e' = true) ->
   forall fuel q0 w0, (length q0 < fuel)%nat ->
     exists w', DaemonThread_run (PullRequestBuilder_run env) name fuel q0 w0
                = (Parked, [], w')).
Proof.
  assert (Hrun : PullRequestBuilder_run env (t :: q) (announce name w) = (Raised e, q, w1)).
  { cbn [PullRequestBuilder_run]. rewrite Hraise. reflexivity. }
  split; [exact Hrun|]. split.
  - intros fuel. cbn [DaemonThread_run]. fold (announce name w).
    rewrite Hrun, Hexc. reflexivity.
  - intros Henv fuel. induction fuel as [|fuel IH]; intros q0 w0 Hlen; [lia|].
    cbn [DaemonThread_run]. fold (announce name w0).
    destruct (PullRequestBuilder_run_ends env q0 (announce name w0))
      as [(w' & H) | (e' & q' & w' & t' & w0' & H & Hlen' & Hst)]; rewrite H.
    + exists w'. reflexivity.
    + assert (He' : is_Exception e' = true).
      { destruct (PullRequestBuilder_step_raises env t' w0' e' w' Hst) as [Hf | ->];
          [exact (Henv _ _ Hf) | reflexivity]. }
      rewrite He'. apply IH. lia.
Qed.

(** Two triggers, and a host that cannot be reached. *)
Lemma worker_exception_is_supervised_witness :
  let env := sample_env (Raise RequestException) in
  let q := [sample_trigger true; sample_trigger false] in
  exists w', DaemonThread_run (PullRequestBuilder_run env) (lit "run") 3 q empty_world
             = (Parked, [], w').
Proof.
  intros env q.
  destruct (worker_exception_is_supervised env (lit "run") (sample_trigger true)
              [sample_trigger false] empty_world RequestException _ eq_refl eq_refl)
    as (_ & _ & H).
  apply H; [|simpl; lia].
  intros url e' He'. injection He' as <-. reflexivity.
Defined.

(** C3, the claim as written fails: with a host that cannot be reached, the
    exception of the first trigger ends [PullRequestBuilder.run] itself,
    the second trigger still queued; and the supervisor logs and sleeps
    before the second trigger is looked at. *)
Lemma worker_loop_ends_on_exception :
  let env := sample_env (Raise RequestException) in
  let url := pull_request_url (lit "owner/name") 42 in
  PullRequestBuilder_run env [sample_trigger true; sample_trigger false] empty_world
  = (Raised RequestException, [sample_trigger false], emit (HttpGet url) empty_world) /\
  trace (snd (DaemonThread_run (PullRequestBuilder_run env) (lit "run") 2
                [sample_trigger true; sample_trigger false] empty_world))
  = [Stdout (lit "Running run"); HttpGet url;
     LogException (lit "Daemon thread %r failed") RequestException; Sleep 1;
     Stdout (lit "Running run"); HttpGet url;
     LogException (lit "Daemon thread %r failed") RequestException; Sleep 1].
Proof. split; reflexivity. Qed.

(** ** The supervisor on a function that fails twice *)

Lemma counting_target_calls_grow behaviour name fuel calls w :
  (calls <= snd (fst (DaemonThread_run (counting_target behaviour) name fuel calls w)))%nat.
Proof.
  revert calls w. induction fuel as [|fuel IH]; intros calls w; [simpl; lia|].
  cbn [DaemonThread_run counting_target].
  destruct (behaviour calls) as [|e|].
  - etransitivity; [|apply IH]. lia.
  - destruct (is_Exception e).
    + etransitivity; [|apply IH]. lia.
    + simpl. lia.
  - simpl. lia.
Qed.

(** C4, as amended.  When the wrapped function raises (an [Exception]) on
    its first two calls and returns on the third, the supervisor calls it a
    third time, having logged each failure and slept one second after it
    (and not after the call that returned); it is then still in its loop,
    and every further round begins with one more call: after four rounds
    or more the function has been called at least four times. *)
Theorem supervisor_restarts_after_failures behaviour name w e1 e2
    (H1 : behaviour 0%nat = Raised e1) (H2 : behaviour 1%nat = Raised e2)
    (H3 : behaviour 2%nat = Returned)
    (He1 : is_Exception e1 = true) (He2 : is_Exception e2 = true) :
  DaemonThread_run (counting_target behaviour) name 3 0%nat w
  = (Running, 3%nat,
     emit_all [Stdout (lit "Running " ++ name);
               LogException (lit "Daemon thread %r failed") e1; Sleep 1;
               Stdout (lit "Running " ++ name);
               LogException (lit "Daemon thread %r failed") e2; Sleep 1;
               Stdout (lit "Running " ++ name)] w) /\
  (forall more,
     (4 <= snd (fst (DaemonThread_run (counting_target behaviour) name (4 + more) 0%nat w)))%nat).
Proof.
  split.
  - cbn [DaemonThread_run counting_target]. rewrite H1, He1, H2, He2, H3. reflexivity.
  - intros more.
    change (4 + more)%nat with (S (S (S (S more)))).
    cbn [DaemonThread_run counting_target]. rewrite H1, He1, H2, He2, H3.
    destruct (behaviour 3%nat) as [|e|].
    + apply counting_target_calls_grow.
    + destruct (is_Exception e); [apply counting_target_calls_grow | simpl; lia].
    + simpl. lia.
Qed.

Lemma supervisor_restarts_after_failures_witness :
  sleeps (trace (snd (DaemonThread_run (counting_target fails_twice) (lit "f") 3 0%nat
                        empty_world))) = [1%Z; 1%Z] /\
  (4 <= snd (fst (DaemonThread_run (counting_target fails_twice) (lit "f") (4 + 6) 0%nat
                    empty_world)))%nat.
Proof.
  destruct (supervisor_restarts_after_failures fails_twice (lit "f") empty_world
              RuntimeError RuntimeError eq_refl eq_refl eq_refl eq_refl eq_refl)
    as [Hrun Hmore].
  split; [rewrite Hrun; reflexivity | exact (Hmore 6%nat)].
Defined.

(** C4, the claim as written fails: after the third call returned, the loop
    calls the function again at once; four rounds make four calls, ten
    rounds make ten, and no pause follows a call that returned. *)
Lemma supervisor_calls_again_after_success :
  fails_twice 0 = Raised RuntimeError /\ fails_twice 1 = Raised RuntimeError /\
  fails_twice 2 = Returned /\
  fst (DaemonThread_run (counting_target fails_twice) (lit "f") 4 0%nat empty_world)
  = (Running, 4%nat) /\
  invocations (trace (snd (DaemonThread_run (counting_target fails_twice) (lit "f") 10 0%nat
                             empty_world))) = 10%nat /\
  sleeps (trace (snd (DaemonThread_run (counting_target fails_twice) (lit "f") 10 0%nat
                        empty_world))) = [1%Z; 1%Z].
Proof. repeat split. Qed.

(** ** Status collector *)

Lemma collapse_lookup (m : gmap pystr (list json)) (d : gmap pystr json) (k : pystr) :
  collapse m = Return d -> d !! k = m !! k ≫= head.
Proof.
  unfold collapse. destruct (decide _); [|discriminate].
  intros [= <-]. apply lookup_omap.
Qed.

(** Every result of the shape the farm sends (each property a list with a
    first element) collapses without raising. *)
Lemma collapse_well_formed (m : gmap pystr (list json)) :
  map_Forall (fun _ v => is_Some (head v)) m -> collapse m = Return (omap head m).
Proof. intros Hwf. unfold collapse. rewrite decide_True by exact Hwf. reflexivity. Qed.

Section Collector.

Variable env : Env.
Variable evt : RawBuildResult.
Variable props : gmap pystr json.
Hypothesis Hprops : collapse (properties evt) = Return props.

Lemma collector_step_missing w :
  props !! lit "headrev" = None \/ props !! lit "repo" = None \/ props !! lit "shortrev" = None ->
  BuildStatusCollector_step env evt w = (Return tt, w).
Proof.
  intros Hmiss. unfold BuildStatusCollector_step, bind, lift. rewrite Hprops.
  assert (Hreq : has_all_required props [lit "headrev"; lit "repo"; lit "shortrev"] = false).
  { cbn [has_all_required]. unfold ObjectLike_contains.
    destruct Hmiss as [H | [H | H]].
    - rewrite bool_decide_eq_false_2; [reflexivity|]. rewrite H. apply is_Some_None.
    - destruct (bool_decide (is_Some (props !! lit "headrev"))); [|reflexivity].
      rewrite bool_decide_eq_false_2; [reflexivity|]. rewrite H. apply is_Some_None.
    - destruct (bool_decide (is_Some (props !! lit "headrev"))); [|reflexivity].
      destruct (bool_decide (is_Some (props !! lit "repo"))); [|reflexivity].
      rewrite bool_decide_eq_false_2; [reflexivity|]. rewrite H. apply is_Some_None. }
  rewrite Hreq. reflexivity.
Qed.

Hypothesis Hheadrev : is_Some (props !! lit "headrev").
Hypothesis Hrepo : is_Some (props !! lit "repo").
Hypothesis Hshortrev : is_Some (props !! lit "shortrev").

Lemma has_all_required_true :
  has_all_required props [lit "headrev"; lit "repo"; lit "shortrev"] = true.
Proof.
  cbn [has_all_required]. unfold ObjectLike_contains.
  rewrite !bool_decide_eq_true_2 by assumption. reflexivity.
Qed.

Lemma collector_step_pr_builder w :
  builder_name evt ∈ pr_builders (cfg env) ->
  BuildStatusCollector_step env evt w
  = (Return tt, emit (Dispatch (lit "buildbot") (collector_status evt props)) w).
Proof.
  intros Hin. unfold BuildStatusCollector_step, bind, lift. rewrite Hprops.
  rewrite has_all_required_true. cbn [negb].
  rewrite bool_decide_eq_true_2 by exact Hin. reflexivity.
Qed.

Lemma collector_step_other w :
  builder_name evt ∉ pr_builders (cfg env) ->
  BuildStatusCollector_step env evt w
  = if truthy (ObjectLike_getattr props (lit "pr_id"))
       && bool_decide (builder_name evt ∈ fifoci_builders (cfg env))
       && results_in_0_1 (results evt)
    then (Return tt, emit (Dispatch (lit "buildbot") (collector_confirmation evt props)) w)
    else (Return tt, w).
Proof.
  intros Hin. unfold BuildStatusCollector_step, bind, lift. rewrite Hprops.
  rewrite has_all_required_true. cbn [negb].
  rewrite bool_decide_eq_false_2 by exact Hin.
  destruct (truthy _ && _ && _); reflexivity.
Qed.

End Collector.

(** C8.  A result whose collapsed properties lack [headrev], [repo] or
    [shortrev] is dropped: the loop body returns without raising and
    leaves the world as it was (nothing dispatched, nothing logged, no file
    touched), and the loop goes on with the next queued result. *)
Theorem collector_drops_incomplete env evt props w
    (Hprops : collapse (properties evt) = Return props)
    (Hmissing : props !! lit "headrev" = None \/ props !! lit "repo" = None \/
                props !! lit "shortrev" = None) :
  BuildStatusCollector_step env evt w = (Return tt, w) /\
  forall q, BuildStatusCollector_run env (evt :: q) w = BuildStatusCollector_run env q w.
Proof.
  pose proof (collector_step_missing env evt props Hprops w Hmissing) as Hstep.
  split; [exact Hstep|].
  intros q. cbn [BuildStatusCollector_run]. rewrite Hstep. reflexivity.
Qed.

Lemma collector_drops_incomplete_witness :
  BuildStatusCollector_step (sample_env (Raise RequestException))
    (sample_result (lit "linux") true (JInt 0) unrelated_properties) empty_world
  = (Return tt, empty_world).
Proof.
  refine (proj1 (collector_drops_incomplete _ _ (omap head unrelated_properties) _ _ _)).
  - vm_compute. reflexivity.
  - right. right. vm_compute. reflexivity.
Defined.

Lemma results_in_0_1_int c :
  results_in_0_1 (JInt c) = ((c =? 0) || (c =? 1))%Z.
Proof. reflexivity. Qed.

(** C7.  For a result whose collapsed properties hold [headrev], [repo]
    and [shortrev]: [pending] is the negation of [complete], and [success]
    says whether the result code is 0 or 1.  A PR builder's result yields
    exactly one [BuildStatus] event with these two flags, the collapsed
    revision fields, the result's URL and the description composed from
    them; with [complete] and result code 1 it is successful, not pending,
    "Build succeeded on builder <name>".  A result of a builder that is no
    PR builder but a downstream-CI builder, with a pull-request id (a
    positive integer, hence a true value) and result code 0, yields exactly
    one confirmation event and no [BuildStatus]; without success it yields
    nothing. *)
Theorem collector_classifies env evt props w
    (Hprops : collapse (properties evt) = Return props)
    (Hheadrev : is_Some (props !! lit "headrev"))
    (Hrepo : is_Some (props !! lit "repo"))
    (Hshortrev : is_Some (props !! lit "shortrev")) :
  let builder := builder_name evt in
  let pending := negb (complete evt) in
  let success := results_in_0_1 (results evt) in
  (forall c, results evt = JInt c -> success = ((c =? 0) || (c =? 1))%Z) /\
  (builder ∈ pr_builders (cfg env) ->
   BuildStatusCollector_step env evt w
   = (Return tt,
      emit (Dispatch (lit "buildbot")
              (EvBuildStatus
                 {| bs_repo := ObjectLike_getattr props (lit "repo");
                    bs_hash := ObjectLike_getattr props (lit "headrev");
                    bs_shortrev := ObjectLike_getattr props (lit "shortrev");
                    bs_service := builder;
                    bs_pr := ObjectLike_getattr props (lit "pr_id");
                    bs_success := success;
                    bs_pending := pending;
                    bs_url := url evt;
                    bs_description :=
                      if pending then lit "Auto build in progress on builder " ++ builder
                      else if success then lit "Build succeeded on builder " ++ builder
                      else lit "Build failed on builder " ++ builder |})) w)) /\
  (builder ∈ pr_builders (cfg env) -> complete evt = true -> results evt = JInt 1 ->
   exists e,
     BuildStatusCollector_step env evt w
     = (Return tt, emit (Dispatch (lit "buildbot") (EvBuildStatus e)) w) /\
     bs_success e = true /\ bs_pending e = false /\
     bs_description e = lit "Build succeeded on builder " ++ builder) /\
  (builder ∉ pr_builders (cfg env) -> builder ∈ fifoci_builders (cfg env) ->
   truthy (ObjectLike_getattr props (lit "pr_id")) = true ->
   success = true ->
   BuildStatusCollector_step env evt w
   = (Return tt,
      emit (Dispatch (lit "buildbot")
              (EvFifoCIStatus
                 {| fifo_repo := ObjectLike_getattr props (lit "repo");
                    fifo_hash := ObjectLike_getattr props (lit "headrev");
                    fifo_service := builder;
                    fifo_pr := ObjectLike_getattr props (lit "pr_id") |})) w)) /\
  (forall n, props !! lit "pr_id" = Some (JInt n) -> (0 < n)%Z ->
   truthy (ObjectLike_getattr props (lit "pr_id")) = true) /\
  (results evt = JInt 0 -> success = true) /\
  (builder ∉ pr_builders (cfg env) -> success = false ->
   BuildStatusCollector_step env evt w = (Return tt, w)).
Proof.
  intros builder pending success.
  split; [intros c Hc; subst success; rewrite Hc; apply results_in_0_1_int|].
  split.
  { intros Hin.
    apply (collector_step_pr_builder env evt props Hprops Hheadrev Hrepo Hshortrev w Hin). }
  split.
  { intros Hin Hc Hr. eexists. split.
    - apply (collector_step_pr_builder env evt props Hprops Hheadrev Hrepo Hshortrev w Hin).
    - cbn [bs_success bs_pending bs_description]. unfold collector_description.
      rewrite Hc, Hr. repeat split. }
  split.
  { intros Hnot Hin Htruthy Hs.
    rewrite (collector_step_other env evt props Hprops Hheadrev Hrepo Hshortrev w Hnot).
    subst success. rewrite Htruthy, Hs, bool_decide_eq_true_2 by exact Hin. reflexivity. }
  split.
  { intros n Hn Hpos. unfold ObjectLike_getattr. rewrite Hn. cbn [truthy].
    apply negb_true_iff, Z.eqb_neq. lia. }
  split; [intros Hr; subst success; rewrite Hr; reflexivity|].
  intros Hnot Hs.
  rewrite (collector_step_other env evt props Hprops Hheadrev Hrepo Hshortrev w Hnot).
  subst success. rewrite Hs, andb_false_r. reflexivity.
Qed.

(** A warning on the PR builder [linux]; a success on the downstream
    builder [fifoci-ogl]. *)
Lemma collector_classifies_witness :
  (exists e,
     BuildStatusCollector_step (sample_env (Raise RequestException))
       (sample_result (lit "linux") true (JInt 1) full_properties) empty_world
     = (Return tt, emit (Dispatch (lit "buildbot") (EvBuildStatus e)) empty_world) /\
     bs_success e = true /\ bs_pending e = false /\
     bs_description e = lit "Build succeeded on builder linux") /\
  dispatched
    (trace (snd (BuildStatusCollector_step (sample_env (Raise RequestException))
                   (sample_result (lit "fifoci-ogl") true (JInt 0) full_properties)
                   empty_world)))
  = [(lit "buildbot",
      EvFifoCIStatus
        {| fifo_repo := Val (JStr (lit "owner/name"));
           fifo_hash := Val (JStr (lit "a1b2c3d4e5f6"));
           fifo_service := lit "fifoci-ogl";
           fifo_pr := Val (JInt 42) |})].
Proof.
  split.
  - refine (proj1 (proj2 (proj2
              (collector_classifies (sample_env (Raise RequestException))
                 (sample_result (lit "linux") true (JInt 1) full_properties)
                 (omap head full_properties) empty_world _ _ _ _))) _ eq_refl eq_refl).
    + vm_compute. reflexivity.
    + eexists. vm_compute. reflexivity.
    + eexists. vm_compute. reflexivity.
    + eexists. vm_compute. reflexivity.
    + apply list_elem_of_here.
  - assert (Hp : collapse (properties (sample_result (lit "fifoci-ogl") true (JInt 0)
                                          full_properties))
                 = Return (omap head full_properties)) by (vm_compute; reflexivity).
    assert (Hh : is_Some (omap head full_properties !! lit "headrev"))
      by (eexists; vm_compute; reflexivity).
    assert (Hr : is_Some (omap head full_properties !! lit "repo"))
      by (eexists; vm_compute; reflexivity).
    assert (Hs : is_Some (omap head full_properties !! lit "shortrev"))
      by (eexists; vm_compute; reflexivity).
    rewrite (proj1 (proj2 (proj2 (proj2
              (collector_classifies (sample_env (Raise RequestException)) _ _
                 empty_world Hp Hh Hr Hs))))).
    + vm_compute. reflexivity.
    + intros Hin. apply (bool_decide_pack _) in Hin. vm_compute in Hin. exact Hin.
    + apply list_elem_of_here.
    + vm_compute. reflexivity.
    + reflexivity.
Defined.

(** C10.  A PR builder's result that carries [headrev], [repo] and
    [shortrev] but no [pr_id] is not dropped and raises nothing: the
    attribute lookup gives [None] for the absent key, and the one
    [BuildStatus] event dispatched has [None] as its pull-request id. *)
Theorem collector_keeps_result_without_pr_id env evt props w
    (Hprops : collapse (properties evt) = Return props)
    (Hbuilder : builder_name evt ∈ pr_builders (cfg env))
    (Hheadrev : is_Some (props !! lit "headrev"))
    (Hrepo : is_Some (props !! lit "repo"))
    (Hshortrev : is_Some (props !! lit "shortrev"))
    (Hpr : props !! lit "pr_id" = None) :
  ObjectLike_getattr props (lit "pr_id") = Val JNull /\
  exists e,
    BuildStatusCollector_step env evt w
    = (Return tt, emit (Dispatch (lit "buildbot") (EvBuildStatus e)) w) /\
    bs_pr e = Val JNull /\
    bs_service e = builder_name evt /\
    bs_repo e = ObjectLike_getattr props (lit "repo") /\
    bs_hash e = ObjectLike_getattr props (lit "headrev") /\
    bs_shortrev e = ObjectLike_getattr props (lit "shortrev") /\
    bs_success e = results_in_0_1 (results evt) /\
    bs_pending e = negb (complete evt).
Proof.
  assert (Hnone : ObjectLike_getattr props (lit "pr_id") = Val JNull).
  { unfold ObjectLike_getattr. rewrite Hpr. reflexivity. }
  split; [exact Hnone|].
  eexists. split.
  - apply (collector_step_pr_builder env evt props Hprops Hheadrev Hrepo Hshortrev w Hbuilder).
  - cbn [bs_pr bs_service bs_repo bs_hash bs_shortrev bs_success bs_pending].
    repeat split. exact Hnone.
Qed.

Lemma collector_keeps_result_without_pr_id_witness :
  exists e,
    dispatched
      (trace (snd (BuildStatusCollector_step (sample_env (Raise RequestException))
                     (sample_result (lit "win") false JNull revision_properties)
                     empty_world)))
    = [(lit "buildbot", EvBuildStatus e)] /\
    bs_pr e = Val JNull /\ bs_pending e = true.
Proof.
  assert (Hp : collapse (properties (sample_result (lit "win") false JNull
                                        revision_properties))
               = Return (omap head revision_properties)) by (vm_compute; reflexivity).
  assert (Hh : is_Some (omap head revision_properties !! lit "headrev"))
    by (eexists; vm_compute; reflexivity).
  assert (Hr : is_Some (omap head revision_properties !! lit "repo"))
    by (eexists; vm_compute; reflexivity).
  assert (Hs : is_Some (omap head revision_properties !! lit "shortrev"))
    by (eexists; vm_compute; reflexivity).
  assert (Hn : omap head revision_properties !! lit "pr_id" = None)
    by (vm_compute; reflexivity).
  destruct (collector_keeps_result_without_pr_id (sample_env (Raise RequestException))
              _ _ empty_world Hp
              (list_elem_of_further _ _ _ (list_elem_of_here _ _)) Hh Hr Hs Hn)
    as (_ & e & Hstep & Hpr & _ & _ & _ & _ & _ & Hpending).
  exists e. rewrite Hstep. split; [reflexivity|]. split; [exact Hpr | exact Hpending].
Defined.

(** * Further properties of the wire encoder *)

(** X1.  Netstrings are uniquely decodable: if two netstrings, each followed
    by arbitrary bytes, give the same byte sequence, then the payloads are the
    same and so are the bytes that follow.  No netstring is a proper prefix
    of another. *)
Theorem make_netstring_prefix_free (s1 s2 r1 r2 out1 out2 : bytes)
    (H1 : make_netstring s1 = Return out1)
    (H2 : make_netstring s2 = Return out2)
    (Heq : out1 ++ r1 = out2 ++ r2) :
  s1 = s2 /\ r1 = r2.
Proof.
  rewrite make_netstring_eq in H1, H2.
  injection H1 as <-. injection H2 as <-.
  pose proof (parse_make_netstring s1 r1) as P1.
  pose proof (parse_make_netstring s2 r2) as P2.
  cbn [app] in P1, P2.
  repeat (rewrite <- app_assoc in Heq; cbn [app] in Heq).
  rewrite Heq, P2 in P1. injection P1 as <- <-. split; reflexivity.
Qed.

Lemma make_netstring_prefix_free_witness :
  [x61; x62] = [x61; x62] /\ [comma] = [comma].
Proof.
  apply (make_netstring_prefix_free [x61; x62] [x61; x62] [comma] [comma]
           [x32; colon; x61; x62; comma] [x32; colon; x61; x62; comma]);
    reflexivity.
Defined.

(** X2.  A build request can be taken apart again: the reader finds the
    netstring of the version [5] first, then the netstring of the encoded
    JSON text, and nothing is left over. *)
Theorem make_build_request_decodes cfg repo pr_id job_id baserev headrev who comment :
  exists req encoded rest,
    make_build_request cfg repo pr_id job_id baserev headrev who comment = Return req /\
    parse_netstring req = Some ([x35], rest) /\
    parse_netstring rest = Some (encoded, []) /\
    map Byte.to_N encoded
    = json_dumps (request_dict cfg repo pr_id job_id baserev headrev who comment).
Proof.
  destruct (make_build_request_total cfg repo pr_id job_id baserev headrev who comment)
    as (encoded & _ & Hmap & Hreq).
  eexists. exists encoded. eexists. split; [exact Hreq|].
  split; [reflexivity|]. split; [|exact Hmap].
  pose proof (parse_make_netstring encoded []) as P. rewrite app_nil_r in P. exact P.
Qed.

(** * Further properties of the job submitter *)

Lemma hexdigit_is_uuid_char d : d < 16 -> is_uuid_char (hexdigit d).
Proof.
  intros Hd. unfold is_uuid_char, hexdigit.
  destruct (d <? 10) eqn:Hlt; [apply N.ltb_lt in Hlt | apply N.ltb_ge in Hlt]; lia.
Qed.

Lemma version_nibble random : N.land (N.shiftr (uuid4_int random) 76) 15 = 4.
Proof.
  unfold uuid4_int.
  set (y := N.lor (N.ldiff (random mod 2 ^ 128) (N.shiftl 49152 48)) (N.shiftl 32768 48)).
  apply N.bits_inj. intros n.
  rewrite N.land_spec, N.shiftr_spec', N.lor_spec, N.ldiff_spec.
  destruct (N.lt_ge_cases n 4) as [Hn|Hn].
  - assert (Hc : n = 0 \/ n = 1 \/ n = 2 \/ n = 3) by lia.
    destruct Hc as [-> | [-> | [-> | ->]]];
      (replace (N.testbit (N.shiftl 61440 64) _) with true by reflexivity);
      rewrite andb_false_r; reflexivity.
  - replace (N.testbit 15 n) with false.
    + rewrite andb_false_r. symmetry.
      apply N.bits_above_log2. simpl. lia.
    + symmetry. apply N.bits_above_log2. simpl. lia.
Qed.

(** X3.  The names drawn for the job files are well-formed version-4 UUIDs,
    whatever the entropy: the integer fits in 128 bits (so ['%032x'] prints
    exactly 32 digits), the text has 36 characters, each a dash, a digit or a
    letter from [a] to [f], with the dashes at offsets 8, 13, 18 and 23 and
    the version digit [4] at offset 14.  In particular a name holds no path
    separator: the two files lie directly in [tmp/] and [new/]. *)
Theorem uuid4_name_well_formed (random : N) :
  let name := uuid_str (uuid4_int random) in
  uuid4_int random < 2 ^ 128 /\
  length name = 36%nat /\
  Forall is_uuid_char name /\
  Forall (fun c => c <> sep) name /\
  name !! 8%nat = Some 45 /\ name !! 13%nat = Some 45 /\
  name !! 18%nat = Some 45 /\ name !! 23%nat = Some 45 /\
  name !! 14%nat = Some 52.
Proof.
  intros name.
  assert (Hchars : Forall is_uuid_char name).
  { subst name. unfold uuid_str. cbn [hex_digits take drop app].
    repeat (apply List.Forall_cons;
            [first [left; reflexivity | apply hexdigit_is_uuid_char, nibble_bound]|]).
    apply List.Forall_nil. }
  split; [apply uuid4_int_bound|]. split; [reflexivity|]. split; [exact Hchars|].
  split.
  { eapply Forall_impl; [exact Hchars|]. unfold is_uuid_char, sep. intros c Hc. lia. }
  split; [reflexivity|]. split; [reflexivity|]. split; [reflexivity|].
  split; [reflexivity|].
  subst name. unfold uuid_str. cbn [hex_digits take drop app lookup list_lookup].
  change (4 * N.of_nat 19) with 76. rewrite version_nibble. reflexivity.
Qed.

(** X4.  A submission that fails raises [OSError] and publishes nothing: no
    event is dispatched, no rename has taken place, and every path other
    than the temporary one (the final name under [new/] among them) is as
    before.  Either the file could not be opened, and then no file changed
    at all; or [write] raised or the rename was refused, and then what has
    reached the file, a prefix of the request and all of it only when
    nothing was lost, is left behind at the temporary name, after exactly
    the open and the write. *)
Theorem send_build_request_failure env (req : bytes) (w w' : World) (e : exn)
    (Hfail : send_build_request env req w = (Raise e, w')) :
  e = OSError /\
  dispatched (trace w') = dispatched (trace w) /\
  (forall p, p <> tmp_path env w -> files w' !! p = files w !! p) /\
  files w' !! final_path env w = files w !! final_path env w /\
  ((may_open_wb env (tmp_path env w) = false /\
    files w' = files w /\ syscalls (trace w') = syscalls (trace w))
   \/
   (may_open_wb env (tmp_path env w) = true /\
    (may_write env (tmp_path env w) req = false \/
     may_rename env (tmp_path env w) (final_path env w) = false) /\
    files w' !! tmp_path env w = Some (take (stored env (tmp_path env w) req) req) /\
    ((length req <= stored env (tmp_path env w) req)%nat ->
     files w' !! tmp_path env w = Some req) /\
    syscalls (trace w')
    = syscalls (trace w) ++ [SysOpen (tmp_path env w); SysWrite (tmp_path env w) req])).
Proof.
  pose proof (tmp_path_neq_final_path env w) as Hne.
  assert (Hleft : forall d,
            e = OSError ->
            w' = {| files := <[tmp_path env w := kept env w req]>
                               (<[tmp_path env w := []]> (files w));
                    drawn := d;
                    trace := (trace w ++ [SysOpen (tmp_path env w)])
                               ++ [SysWrite (tmp_path env w) req] |} ->
            may_open_wb env (tmp_path env w) = true ->
            may_write env (tmp_path env w) req = false \/
            may_rename env (tmp_path env w) (final_path env w) = false ->
            e = OSError /\
            dispatched (trace w') = dispatched (trace w) /\
            (forall p, p <> tmp_path env w -> files w' !! p = files w !! p) /\
            files w' !! final_path env w = files w !! final_path env w /\
            ((may_open_wb env (tmp_path env w) = false /\
              files w' = files w /\ syscalls (trace w') = syscalls (trace w))
             \/
             (may_open_wb env (tmp_path env w) = true /\
              (may_write env (tmp_path env w) req = false \/
               may_rename env (tmp_path env w) (final_path env w) = false) /\
              files w' !! tmp_path env w = Some (take (stored env (tmp_path env w) req) req) /\
              ((length req <= stored env (tmp_path env w) req)%nat ->
               files w' !! tmp_path env w = Some req) /\
              syscalls (trace w')
              = syscalls (trace w)
                  ++ [SysOpen (tmp_path env w); SysWrite (tmp_path env w) req]))).
  { intros d He -> Hopen Hwhy. cbn [files trace].
    assert (Hothers : forall p, p <> tmp_path env w ->
              (<[tmp_path env w := kept env w req]> (<[tmp_path env w := []]> (files w))
               : gmap pystr bytes) !! p = files w !! p).
    { intros p Hp.
      rewrite !lookup_insert_ne by (intros Heq; apply Hp; symmetry; exact Heq).
      reflexivity. }
    split; [exact He|]. split.
    { rewrite !dispatched_app. cbn [dispatched]. rewrite !app_nil_r. reflexivity. }
    split; [exact Hothers|]. split.
    { apply Hothers. intros Heq. apply Hne. symmetry. exact Heq. }
    right. split; [exact Hopen|]. split; [exact Hwhy|].
    split; [apply lookup_insert_eq|]. split.
    { intros Hall. rewrite lookup_insert_eq, (kept_all env w req Hall). reflexivity. }
    rewrite !syscalls_app. cbn [syscalls]. rewrite <- !app_assoc. reflexivity. }
  destruct (send_build_request_cases env req w)
    as [[Hopen H] | [(Hopen & Hwr & H) | [(Hopen & _ & Hren & H) | (_ & _ & _ & H)]]];
    rewrite H in Hfail.
  - assert (He : e = OSError) by (apply (f_equal fst) in Hfail; cbn in Hfail; congruence).
    apply (f_equal snd) in Hfail. cbn [snd] in Hfail. subst w'. cbn [files trace].
    split; [exact He|]. split; [reflexivity|]. split; [reflexivity|].
    split; [reflexivity|]. left. split; [exact Hopen|]. split; reflexivity.
  - assert (He : e = OSError) by (apply (f_equal fst) in Hfail; cbn in Hfail; congruence).
    apply (f_equal snd) in Hfail. cbn [snd] in Hfail.
    apply (Hleft (S (drawn w)) He (eq_sym Hfail) Hopen). left. exact Hwr.
  - assert (He : e = OSError) by (apply (f_equal fst) in Hfail; cbn in Hfail; congruence).
    apply (f_equal snd) in Hfail. cbn [snd] in Hfail.
    apply (Hleft (S (S (drawn w))) He (eq_sym Hfail) Hopen). right. exact Hren.
  - apply (f_equal fst) in Hfail. discriminate Hfail.
Qed.

(** The operating system refuses every rename. *)
Lemma send_build_request_failure_witness :
  let env := {| cfg := sample_cfg; requests_get_json := fun _ => Raise RequestException;
                urandom16 := fun k => N.of_nat k; may_open_wb := fun _ => true;
                may_write := fun _ _ => true; stored := fun _ data => length data;
                may_rename := fun _ _ => false |} in
  exists w', send_build_request env [x31; colon; x35; comma] empty_world
             = (Raise OSError, w') /\
             files w' !! tmp_path env empty_world = Some [x31; colon; x35; comma] /\
             files w' !! final_path env empty_world = None /\
             dispatched (trace w') = [].
Proof.
  intros env.
  destruct (send_build_request_cases env [x31; colon; x35; comma] empty_world)
    as [[Hopen _] | [(_ & Hwr & _) | [(_ & _ & _ & H) | (_ & _ & Hren & _)]]];
    [discriminate Hopen | discriminate Hwr | | discriminate Hren].
  eexists. split; [exact H|].
  destruct (send_build_request_failure env [x31; colon; x35; comma] empty_world _ OSError H)
    as (_ & Hd & _ & Hf & [(Hopen & _) | (_ & _ & _ & Htmp & _)]); [discriminate Hopen|].
  split; [apply Htmp; simpl; lia|]. split; [exact Hf | exact Hd].
Defined.

(** * Further properties of the dispatch worker *)

Lemma http_requests_app tr1 tr2 :
  http_requests (tr1 ++ tr2) = http_requests tr1 ++ http_requests tr2.
Proof.
  induction tr1 as [|e tr1 IH]; [reflexivity|].
  destruct e; simpl; rewrite IH; reflexivity.
Qed.

Lemma http_requests_map_Dispatch {A} topic (f : A -> event) (l : list A) :
  http_requests (map (fun x => Dispatch topic (f x)) l) = [].
Proof. induction l as [|x l IH]; [reflexivity | exact IH]. Qed.

Lemma send_build_request_no_request env (req : bytes) (w : World) :
  http_requests (trace (snd (send_build_request env req w))) = http_requests (trace w).
Proof.
  destruct (send_build_request_cases env req w)
    as [[_ H] | [(_ & _ & H) | [(_ & _ & _ & H) | (_ & _ & _ & H)]]];
    rewrite H; cbn [snd trace]; rewrite ?http_requests_app; cbn [http_requests];
    rewrite ?app_nil_r; reflexivity.
Qed.

Lemma pr_status_of_trigger t pr service success pending url description :
  status_of_trigger t pr
    (lit "prbuilder", pr_status t pr service success pending url description).
Proof. split; [reflexivity|]. eexists. repeat split. Qed.

Lemma PullRequestBuilder_step_requests env (t : BuildTrigger) (w : World) :
  http_requests (trace (snd (PullRequestBuilder_step env t w)))
  = http_requests (trace w) ++ [pull_request_url (repo t) (pr_id t)].
Proof.
  destruct (requests_get_json env (pull_request_url (repo t) (pr_id t))) as [pr|e] eqn:Hfetch.
  - destruct (trusted t) eqn:Ht; [destruct (decide (mergeable pr = Some false)) as [Hm|Hm]|].
    + rewrite (step_unmergeable env t pr Hfetch w Ht Hm). cbn [snd].
      rewrite trace_emit_all, http_requests_app. reflexivity.
    + destruct (step_proceeds env t pr Hfetch w Ht Hm) as (req & _ & Hstep).
      rewrite Hstep, send_build_request_no_request.
      rewrite trace_emit_all, !http_requests_app. cbn [preamble http_requests app].
      rewrite http_requests_map_Dispatch. reflexivity.
    + rewrite (step_untrusted env t pr Hfetch w Ht). cbn [snd].
      rewrite trace_emit_all, http_requests_app. reflexivity.
  - unfold PullRequestBuilder_step, bind, tell, lift. rewrite Hfetch.
    cbn [snd emit trace]. rewrite http_requests_app. reflexivity.
Qed.

(** X5.  Whatever the trigger and whatever the outcome (rejection, submission,
    failed fetch, failed submission), one pass of the worker's loop sends
    exactly one request to the host, for the pull request of the trigger, and
    dispatches at most one event more than there are configured builders.
    When the fetch fails it dispatches nothing; otherwise every event it
    dispatches goes to the topic [prbuilder] and carries the trigger's
    repository and pull-request id, the head revision of the pull request
    that was fetched and the first six characters of that revision. *)
Theorem dispatch_worker_footprint env (t : BuildTrigger) (w : World) :
  let w' := snd (PullRequestBuilder_step env t w) in
  http_requests (trace w')
  = http_requests (trace w) ++ [pull_request_url (repo t) (pr_id t)] /\
  exists evs,
    dispatched (trace w') = dispatched (trace w) ++ evs /\
    (length evs <= 1 + length (pr_builders (cfg env)))%nat /\
    match requests_get_json env (pull_request_url (repo t) (pr_id t)) with
    | Return pr => Forall (status_of_trigger t pr) evs
    | Raise _ => evs = []
    end.
Proof.
  intros w'. subst w'.
  destruct (requests_get_json env (pull_request_url (repo t) (pr_id t))) as [pr|e] eqn:Hfetch.
  - destruct (trusted t) eqn:Ht; [destruct (decide (mergeable pr = Some false)) as [Hm|Hm]|].
    + rewrite (step_unmergeable env t pr Hfetch w Ht Hm). cbn [snd].
      rewrite trace_emit_all, http_requests_app, dispatched_app. split; [reflexivity|].
      eexists. split; [reflexivity|]. split; [simpl; lia|].
      repeat constructor; apply pr_status_of_trigger.
    + destruct (step_proceeds env t pr Hfetch w Ht Hm) as (req & _ & Hstep).
      rewrite Hstep, send_build_request_no_request, send_build_request_quiet.
      rewrite trace_emit_all, http_requests_app, dispatched_app.
      rewrite http_requests_app, dispatched_app. cbn [preamble http_requests dispatched app].
      rewrite http_requests_map_Dispatch, dispatched_map_Dispatch.
      split; [reflexivity|].
      eexists. split; [reflexivity|]. split; [simpl; rewrite length_map; lia|].
      constructor; [apply pr_status_of_trigger|].
      apply Forall_map, Forall_forall. intros b _. apply pr_status_of_trigger.
    + rewrite (step_untrusted env t pr Hfetch w Ht). cbn [snd].
      rewrite trace_emit_all, http_requests_app, dispatched_app. split; [reflexivity|].
      eexists. split; [reflexivity|]. split; [simpl; lia|].
      repeat constructor; apply pr_status_of_trigger.
  - assert (Hstep : PullRequestBuilder_step env t w
                    = (Raise e, emit (HttpGet (pull_request_url (repo t) (pr_id t))) w)).
    { unfold PullRequestBuilder_step, bind, tell, lift. rewrite Hfetch. reflexivity. }
    rewrite Hstep. cbn [snd emit trace]. rewrite http_requests_app, dispatched_app.
    split; [reflexivity|]. exists []. split; [reflexivity|]. split; [simpl; lia | reflexivity].
Qed.

(** X6.  Both workers take their queue strictly in arrival order and lose
    nothing behind a failure: running on [q1 ++ q2] is running on [q1] and,
    if that went through, going on with [q2] in the world [q1] left; if an
    item of [q1] raised, the rest of [q1] and all of [q2] are still queued.
    So what [push] (for the collector: the hook listener) puts in the queue
    is taken after everything queued before it, and stays queued, behind the
    rest, when an earlier item raises. *)
Theorem workers_are_fifo env :
  (forall (q1 q2 : list BuildTrigger) (w : World),
     PullRequestBuilder_run env (q1 ++ q2) w
     = match PullRequestBuilder_run env q1 w with
       | (Raised e, q1', w1) => (Raised e, q1' ++ q2, w1)
       | (_, _, w1) => PullRequestBuilder_run env q2 w1
       end) /\
  (forall (q1 q2 : list RawBuildResult) (w : World),
     BuildStatusCollector_run env (q1 ++ q2) w
     = match BuildStatusCollector_run env q1 w with
       | (Raised e, q1', w1) => (Raised e, q1' ++ q2, w1)
       | (_, _, w1) => BuildStatusCollector_run env q2 w1
       end) /\
  (forall (q : list BuildTrigger) in_behalf_of trusted repo pr_id (w : World),
     PullRequestBuilder_run env (PullRequestBuilder_push q in_behalf_of trusted repo pr_id) w
     = match PullRequestBuilder_run env q w with
       | (Raised e, q', w1) =>
           (Raised e, PullRequestBuilder_push q' in_behalf_of trusted repo pr_id, w1)
       | (_, _, w1) =>
           PullRequestBuilder_run env
             (PullRequestBuilder_push [] in_behalf_of trusted repo pr_id) w1
       end) /\
  (forall (q : list RawBuildResult) (raw : RawBuildResult) (w : World),
     BuildStatusCollector_run env (BBHookListener_push_event raw q) w
     = match BuildStatusCollector_run env q w with
       | (Raised e, q', w1) => (Raised e, BBHookListener_push_event raw q', w1)
       | (_, _, w1) => BuildStatusCollector_run env (BBHookListener_push_event raw []) w1
       end).
Proof.
  assert (Hbuilder : forall (q1 q2 : list BuildTrigger) (w : World),
     PullRequestBuilder_run env (q1 ++ q2) w
     = match PullRequestBuilder_run env q1 w with
       | (Raised e, q1', w1) => (Raised e, q1' ++ q2, w1)
       | (_, _, w1) => PullRequestBuilder_run env q2 w1
       end).
  { induction q1 as [|t q1 IH]; intros q2 w; [reflexivity|].
    cbn [app PullRequestBuilder_run].
    destruct (PullRequestBuilder_step env t w) as [[[]|e] w1]; [apply IH | reflexivity]. }
  assert (Hcollector : forall (q1 q2 : list RawBuildResult) (w : World),
     BuildStatusCollector_run env (q1 ++ q2) w
     = match BuildStatusCollector_run env q1 w with
       | (Raised e, q1', w1) => (Raised e, q1' ++ q2, w1)
       | (_, _, w1) => BuildStatusCollector_run env q2 w1
       end).
  { induction q1 as [|t q1 IH]; intros q2 w; [reflexivity|].
    cbn [app BuildStatusCollector_run].
    destruct (BuildStatusCollector_step env t w) as [[[]|e] w1]; [apply IH | reflexivity]. }
  split; [exact Hbuilder|]. split; [exact Hcollector|]. split.
  - intros q a tr r p w. unfold PullRequestBuilder_push. apply Hbuilder.
  - intros q raw w. unfold BBHookListener_push_event, BuildStatusCollector_push.
    apply Hcollector.
Qed.

(** * Further properties of the status collector *)

Lemma collapse_raises (m : gmap pystr (list json)) :
  collapse m = Raise IndexError <-> exists k, m !! k = Some [].
Proof.
  unfold collapse. destruct (decide _) as [Hall|Hnot].
  - split; [discriminate|]. intros (k & Hk).
    specialize (Hall k [] Hk). destruct Hall as [x Hx]. discriminate.
  - split; [intros _|reflexivity].
    apply map_not_Forall in Hnot; [|apply _].
    destruct Hnot as (k & v & Hk & Hv). exists k. rewrite Hk. f_equal.
    destruct v; [reflexivity|]. exfalso. apply Hv. eexists. reflexivity.
Qed.

Lemma collapse_cases (m : gmap pystr (list json)) :
  collapse m = Return (omap head m) \/ collapse m = Raise IndexError.
Proof. unfold collapse. destruct (decide _); [left | right]; reflexivity. Qed.

Lemma collector_step_cases env evt w :
  BuildStatusCollector_step env evt w = (Raise IndexError, w) /\
    collapse (properties evt) = Raise IndexError
  \/ BuildStatusCollector_step env evt w = (Return tt, w) /\
    collapse (properties evt) = Return (omap head (properties evt))
  \/ exists ev,
       BuildStatusCollector_step env evt w
       = (Return tt, emit (Dispatch (lit "buildbot") ev) w) /\
       collapse (properties evt) = Return (omap head (properties evt)).
Proof.
  unfold BuildStatusCollector_step, bind, lift.
  destruct (collapse_cases (properties evt)) as [H|H]; rewrite H;
    [|left; split; reflexivity].
  right.
  destruct (has_all_required _ _); cbn [negb]; [|left; split; reflexivity].
  destruct (bool_decide (builder_name evt ∈ pr_builders (cfg env)));
    [right; eexists; split; reflexivity|].
  destruct (truthy _ && _ && _);
    [right; eexists; split; reflexivity | left; split; reflexivity].
Qed.

(** X7.  For a raw result of the shape the data model gives it (a builder
    with a name, every property a list of values): one pass of the
    collector's loop raises exactly when some property is an empty list (be
    it a key the collector never reads), the exception is [IndexError], and
    the world is then unchanged.  In every case the pass dispatches at most
    one event, to the topic [buildbot], and does nothing else: no log line,
    no request, no file-system call, no file changed. *)
Theorem collector_step_footprint env (evt : RawBuildResult) (w : World) :
  let r := BuildStatusCollector_step env evt w in
  (fst r = Raise IndexError <-> exists k, properties evt !! k = Some []) /\
  (forall e, fst r = Raise e -> e = IndexError /\ snd r = w) /\
  exists evs,
    trace (snd r) = trace w ++ map (Dispatch (lit "buildbot")) evs /\
    (length evs <= 1)%nat /\
    files (snd r) = files w /\ drawn (snd r) = drawn w.
Proof.
  intros r. subst r.
  destruct (collector_step_cases env evt w) as [[H Hc] | [[H Hc] | (ev & H & Hc)]];
    rewrite H; cbn [fst snd].
  - split; [split; [intros _; apply collapse_raises, Hc | reflexivity]|].
    split; [intros e [= <-]; split; reflexivity|].
    exists []. cbn [map]. rewrite app_nil_r.
    split; [reflexivity|]. split; [simpl; lia|]. split; reflexivity.
  - split.
    { split; [discriminate|]. intros Hk. apply collapse_raises in Hk. congruence. }
    split; [discriminate|].
    exists []. cbn [map]. rewrite app_nil_r.
    split; [reflexivity|]. split; [simpl; lia|]. split; reflexivity.
  - split.
    { split; [discriminate|]. intros Hk. apply collapse_raises in Hk. congruence. }
    split; [discriminate|].
    exists [ev]. split; [reflexivity|]. split; [simpl; lia|]. split; reflexivity.
Qed.

Lemma BuildStatusCollector_run_ends env q w :
  (exists w', BuildStatusCollector_run env q w = (Blocked, [], w')) \/
  (exists q' w',
     BuildStatusCollector_run env q w = (Raised IndexError, q', w') /\
     (length q' < length q)%nat).
Proof.
  revert w. induction q as [|evt q IH]; intros w; [left; eexists; reflexivity|].
  cbn [BuildStatusCollector_run].
  destruct (collector_step_cases env evt w) as [[H _] | [[H _] | (ev & H & _)]];
    rewrite H.
  - right. exists q, w. split; [reflexivity | simpl; lia].
  - destruct (IH w) as [(w'' & Hr) | (q' & w'' & Hr & Hlen)].
    + left. exists w''. exact Hr.
    + right. exists q', w''. split; [exact Hr | simpl; lia].
  - destruct (IH (emit (Dispatch (lit "buildbot") ev) w))
      as [(w'' & Hr) | (q' & w'' & Hr & Hlen)].
    + left. exists w''. exact Hr.
    + right. exists q', w''. split; [exact Hr | simpl; lia].
Qed.

(** X8.  The supervised collector cannot be stopped by what the farm sends:
    whatever results are queued, malformed ones included, after more rounds
    than there are results the thread has taken every one of them and
    waits on the empty queue; it has not died. *)
Theorem supervised_collector_drains env name (fuel : nat) (q : list RawBuildResult)
    (w : World) (Hfuel : (length q < fuel)%nat) :
  exists w', DaemonThread_run (BuildStatusCollector_run env) name fuel q w
             = (Parked, [], w').
Proof.
  revert q w Hfuel. induction fuel as [|fuel IH]; intros q w Hfuel; [lia|].
  cbn [DaemonThread_run].
  destruct (BuildStatusCollector_run_ends env q (emit (Stdout (lit "Running " ++ name)) w))
    as [(w' & H) | (q' & w' & H & Hlen)]; rewrite H.
  - exists w'. reflexivity.
  - cbn [is_Exception]. apply IH. lia.
Qed.

(** A result with an empty property list between two good ones. *)
Lemma supervised_collector_drains_witness :
  exists w',
    DaemonThread_run (BuildStatusCollector_run (sample_env (Raise RequestException)))
      (lit "run") 4
      [sample_result (lit "linux") true (JInt 0) full_properties;
       sample_result (lit "linux") true (JInt 0) (<[lit "reason" := []]> full_properties);
       sample_result (lit "win") true (JInt 2) full_properties]
      empty_world
    = (Parked, [], w').
Proof.
  apply (supervised_collector_drains (sample_env (Raise RequestException)) (lit "run") 4).
  simpl. lia.
Defined.

(** * Further properties of the supervised task runner *)

Lemma DaemonThread_run_counting behaviour name fuel calls w :
  (forall k, (k < fuel)%nat -> comes_back (behaviour (calls + k)%nat)) ->
  DaemonThread_run (counting_target behaviour) name fuel calls w
  = (Running, (calls + fuel)%nat,
     emit_all (concat (map (fun k => daemon_round name (behaviour k)) (seq calls fuel))) w).
Proof.
  revert calls w. induction fuel as [|fuel IH]; intros calls w Hlive.
  - rewrite Nat.add_0_r. reflexivity.
  - cbn [DaemonThread_run counting_target seq map concat].
    pose proof (Hlive O ltac:(lia)) as H0. rewrite Nat.add_0_r in H0.
    assert (Hrest : forall k, (k < fuel)%nat -> comes_back (behaviour (S calls + k)%nat)).
    { intros k Hk. replace (S calls + k)%nat with (calls + S k)%nat by lia.
      apply Hlive. lia. }
    rewrite emit_all_app. replace (calls + S fuel)%nat with (S calls + fuel)%nat by lia.
    destruct (behaviour calls) as [|e|]; cbn [comes_back] in H0.
    + rewrite (IH _ _ Hrest). reflexivity.
    + rewrite H0, (IH _ _ Hrest). reflexivity.
    + destruct H0.
Qed.

(** X9.  The supervisor on a function that always comes back (it returns or
    raises an [Exception], and has no effect of its own): after any number
    of rounds the thread is still running, the function has been called once
    per round, and each round shows the print, followed, only if the call
    raised, by the logged failure and a pause of one second.  A function that
    keeps returning is therefore called in a tight loop, with no pause at
    all. *)
Theorem supervisor_rhythm behaviour name (fuel : nat) (w : World)
    (Hlive : forall k, (k < fuel)%nat -> comes_back (behaviour k)) :
  DaemonThread_run (counting_target behaviour) name fuel 0%nat w
  = (Running, fuel,
     emit_all (concat (map (fun k => daemon_round name (behaviour k)) (seq 0 fuel))) w) /\
  ((forall k, (k < fuel)%nat -> behaviour k = Returned) ->
   sleeps (trace (snd (DaemonThread_run (counting_target behaviour) name fuel 0%nat w)))
   = sleeps (trace w) /\
   invocations (trace (snd (DaemonThread_run (counting_target behaviour) name fuel 0%nat w)))
   = (invocations (trace w) + fuel)%nat).
Proof.
  assert (Hrun := DaemonThread_run_counting behaviour name fuel 0%nat w Hlive).
  cbn [Nat.add] in Hrun. split; [exact Hrun|].
  intros Hret. rewrite Hrun. cbn [snd]. rewrite trace_emit_all.
  assert (Hquiet : forall c n,
            (forall k, (k < c + n)%nat -> behaviour k = Returned) ->
            sleeps (concat (map (fun k => daemon_round name (behaviour k)) (seq c n))) = [] /\
            invocations (concat (map (fun k => daemon_round name (behaviour k)) (seq c n))) = n).
  { intros c n. revert c. induction n as [|n IH]; intros c Hall; [split; reflexivity|].
    cbn [seq map concat]. rewrite (Hall c) by lia. cbn [daemon_round app sleeps invocations].
    destruct (IH (S c)) as [Hs Hi]; [intros k Hk; apply Hall; lia|].
    rewrite Hs, Hi. split; reflexivity. }
  destruct (Hquiet 0%nat fuel Hret) as [Hs Hi].
  assert (Happ_s : forall a b, sleeps (a ++ b) = sleeps a ++ sleeps b).
  { induction a as [|x a IH]; intros b; [reflexivity|]. destruct x; simpl; rewrite IH; reflexivity. }
  assert (Happ_i : forall a b, invocations (a ++ b) = (invocations a + invocations b)%nat).
  { induction a as [|x a IH]; intros b; [reflexivity|]. destruct x; simpl; rewrite IH; reflexivity. }
  rewrite Happ_s, Happ_i, Hs, Hi, app_nil_r. split; reflexivity.
Qed.

(** Five rounds on a function that fails twice and then returns. *)
Lemma supervisor_rhythm_witness :
  DaemonThread_run (counting_target fails_twice) (lit "f") 5 0%nat empty_world
  = (Running, 5%nat,
     emit_all (concat (map (fun k => daemon_round (lit "f") (fails_twice k)) (seq 0 5)))
       empty_world).
Proof.
  refine (proj1 (supervisor_rhythm fails_twice (lit "f") 5 empty_world _)).
  intros k Hk. unfold fails_twice. destruct (k <? 2)%nat; reflexivity.
Defined.

Lemma periodic_rounds_inside behaviour name time_sleep interval wrapper_str fuel calls w :
  time_sleep interval = None ->
  (forall k, (k < fuel)%nat -> comes_back (behaviour (calls + k)%nat)) ->
  periodic_rounds (counting_target behaviour) (Some name) time_sleep interval wrapper_str
    fuel false calls w
  = (Running, (calls + fuel)%nat,
     emit_all (concat (map (fun k => periodic_round interval (behaviour k)) (seq calls fuel)))
       w).
Proof.
  intros Hsleep. revert calls w. induction fuel as [|fuel IH]; intros calls w Hlive.
  - rewrite Nat.add_0_r. reflexivity.
  - cbn [periodic_rounds counting_target seq map concat].
    pose proof (Hlive O ltac:(lia)) as H0. rewrite Nat.add_0_r in H0.
    assert (Hrest : forall k, (k < fuel)%nat -> comes_back (behaviour (S calls + k)%nat)).
    { intros k Hk. replace (S calls + k)%nat with (calls + S k)%nat by lia.
      apply Hlive. lia. }
    rewrite Hsleep, emit_all_app.
    replace (calls + S fuel)%nat with (S calls + fuel)%nat by lia.
    destruct (behaviour calls) as [|e|]; cbn [comes_back] in H0.
    + rewrite (IH _ _ Hrest). reflexivity.
    + rewrite H0, (IH _ _ Hrest). reflexivity.
    + destruct H0.
Qed.

Lemma periodic_rounds_unslept behaviour name time_sleep interval wrapper_str e fuel calls w :
  time_sleep interval = Some e -> is_Exception e = true ->
  (forall k, (k < fuel)%nat -> comes_back (behaviour (calls + k)%nat)) ->
  periodic_rounds (counting_target behaviour) (Some name) time_sleep interval wrapper_str
    fuel true calls w
  = (Running, (calls + fuel)%nat,
     emit_all (concat (map (fun k => periodic_round_unslept wrapper_str e (behaviour k))
                         (seq calls fuel))) w).
Proof.
  intros Hsleep He. revert calls w. induction fuel as [|fuel IH]; intros calls w Hlive.
  - rewrite Nat.add_0_r. reflexivity.
  - cbn [periodic_rounds counting_target seq map concat].
    pose proof (Hlive O ltac:(lia)) as H0. rewrite Nat.add_0_r in H0.
    assert (Hrest : forall k, (k < fuel)%nat -> comes_back (behaviour (S calls + k)%nat)).
    { intros k Hk. replace (S calls + k)%nat with (calls + S k)%nat by lia.
      apply Hlive. lia. }
    rewrite Hsleep, He, emit_all_app.
    replace (calls + S fuel)%nat with (S calls + fuel)%nat by lia.
    destruct (behaviour calls) as [|e'|]; cbn [comes_back] in H0.
    + rewrite (IH _ _ Hrest). reflexivity.
    + rewrite H0, (IH _ _ Hrest). reflexivity.
    + destruct H0.
Qed.

Lemma periodic_rounds_nameless behaviour time_sleep interval wrapper_str fuel calls w :
  (forall k, (k < fuel)%nat ->
     exists e, behaviour (calls + k)%nat = Raised e /\ is_Exception e = true) ->
  periodic_rounds (counting_target behaviour) None time_sleep interval wrapper_str
    fuel true calls w
  = (Running, (calls + fuel)%nat,
     emit_all (concat (map (fun _ => periodic_round_nameless wrapper_str) (seq calls fuel)))
       w).
Proof.
  revert calls w. induction fuel as [|fuel IH]; intros calls w Hfail.
  - rewrite Nat.add_0_r. reflexivity.
  - cbn [periodic_rounds counting_target seq map concat].
    destruct (Hfail O ltac:(lia)) as (e & H0 & He). rewrite Nat.add_0_r in H0.
    assert (Hrest : forall k, (k < fuel)%nat ->
              exists e, behaviour (S calls + k)%nat = Raised e /\ is_Exception e = true).
    { intros k Hk. replace (S calls + k)%nat with (calls + S k)%nat by lia.
      apply Hfail. lia. }
    rewrite H0, He, emit_all_app. cbn [is_Exception].
    replace (calls + S fuel)%nat with (S calls + fuel)%nat by lia.
    rewrite (IH _ _ Hrest). reflexivity.
Qed.

Lemma periodic_rounds_alive behaviour f_name time_sleep interval wrapper_str
    fuel entering calls w :
  (forall e, time_sleep interval = Some e -> is_Exception e = true) ->
  (forall k, (k < fuel)%nat -> comes_back (behaviour (calls + k)%nat)) ->
  fst (periodic_rounds (counting_target behaviour) f_name time_sleep interval wrapper_str
         fuel entering calls w)
  = (Running, (calls + fuel)%nat).
Proof.
  intros Hsleep. revert entering calls w.
  induction fuel as [|fuel IH]; intros entering calls w Hlive.
  - rewrite Nat.add_0_r. reflexivity.
  - cbn [periodic_rounds counting_target].
    pose proof (Hlive O ltac:(lia)) as H0. rewrite Nat.add_0_r in H0.
    assert (Hrest : forall k, (k < fuel)%nat -> comes_back (behaviour (S calls + k)%nat)).
    { intros k Hk. replace (S calls + k)%nat with (calls + S k)%nat by lia.
      apply Hlive. lia. }
    replace (calls + S fuel)%nat with (S calls + fuel)%nat by lia.
    destruct (time_sleep interval) as [es|] eqn:Hes;
      [rewrite (Hsleep es eq_refl)|];
      (destruct (behaviour calls) as [|e|]; cbn [comes_back] in H0;
       [apply (IH _ _ _ Hrest)
       | rewrite H0; destruct f_name; cbn [is_Exception]; apply (IH _ _ _ Hrest)
       | destruct H0]).
Qed.



(** * Properties of [ObjectLike] *)

Lemma ObjectLike_attribute_plain (dictlike : gmap pystr json) (name : pystr) :
  plain_name name = true ->
  ObjectLike_attribute dictlike name = Some (Attr_value (ObjectLike_getattr dictlike name)).
Proof.
  unfold plain_name, ObjectLike_attribute. intros H.
  apply andb_prop in H as [Hown Hspecial].
  apply negb_true_iff in Hown, Hspecial. apply bool_decide_eq_false_1 in Hown.
  rewrite Hspecial.
  rewrite bool_decide_eq_false_2 by (intros ->; apply Hown, list_elem_of_here).
  rewrite bool_decide_eq_false_2; [reflexivity|].
  intros Hin. apply Hown, list_elem_of_further, Hin.
Qed.

Lemma ObjectLike_attribute_own (dictlike : gmap pystr json) (name : pystr) (val : pyval) :
  name ∈ [lit "dictlike"; lit "reset"; lit "items"] ->
  ObjectLike_attribute dictlike name <> Some (Attr_value val).
Proof.
  unfold ObjectLike_attribute. intros Hin.
  destruct (bool_decide (name = lit "dictlike")) eqn:Hd; [discriminate|].
  apply bool_decide_eq_false_1 in Hd.
  rewrite bool_decide_eq_true_2; [discriminate|].
  apply elem_of_cons in Hin as [Heq | Hin]; [destruct (Hd Heq) | exact Hin].
Qed.

Lemma ObjectLike_getattr_wrap (dictlike : gmap pystr json) (name : pystr) (v : json) :
  dictlike !! name = Some v -> ObjectLike_getattr dictlike name = ObjectLike_wrap v.
Proof. unfold ObjectLike_getattr. intros ->. destruct v; reflexivity. Qed.

(** X11.  For a name that is no attribute of the class or of the instance,
    attribute lookup cannot tell a missing key from a key that holds
    [None]: it returns [None] in exactly these two cases, and only [in]
    separates them; a key that is not contained reads as [None].  The four
    names the collector reads are of this kind.  The keys [dictlike],
    [reset] and [items] are shadowed: whatever the dictionary holds under
    them, attribute lookup never returns it, it finds the dictionary itself
    or the method of that name. *)
Theorem ObjectLike_getattr_None (dictlike : gmap pystr json) (name : pystr) :
  (plain_name name = true ->
   (ObjectLike_attribute dictlike name = Some (Attr_value (Val JNull))
    <-> dictlike !! name = None \/ dictlike !! name = Some JNull) /\
   (ObjectLike_contains dictlike name = false ->
    ObjectLike_attribute dictlike name = Some (Attr_value (Val JNull)))) /\
  (ObjectLike_contains dictlike name = false <-> dictlike !! name = None) /\
  (name ∈ [lit "headrev"; lit "repo"; lit "pr_id"; lit "shortrev"] ->
   ObjectLike_attribute dictlike name
   = Some (Attr_value (ObjectLike_getattr dictlike name))) /\
  (name ∈ [lit "dictlike"; lit "reset"; lit "items"] ->
   forall val, ObjectLike_attribute dictlike name <> Some (Attr_value val)) /\
  ObjectLike_attribute dictlike (lit "dictlike") = Some (Attr_dictlike dictlike) /\
  ObjectLike_attribute dictlike (lit "items") = Some (Attr_method (lit "items")) /\
  ObjectLike_attribute dictlike (lit "reset") = Some (Attr_method (lit "reset")).
Proof.
  assert (Hcontains : ObjectLike_contains dictlike name = false <-> dictlike !! name = None).
  { unfold ObjectLike_contains. destruct (dictlike !! name) as [v|].
    - rewrite bool_decide_eq_true_2 by (eexists; reflexivity). split; discriminate.
    - rewrite bool_decide_eq_false_2 by (apply is_Some_None). split; reflexivity. }
  split; [|split; [exact Hcontains|]].
  - intros Hplain. rewrite (ObjectLike_attribute_plain dictlike name Hplain).
    assert (Hnull : ObjectLike_getattr dictlike name = Val JNull
                    <-> dictlike !! name = None \/ dictlike !! name = Some JNull).
    { unfold ObjectLike_getattr. destruct (dictlike !! name) as [v|].
      - destruct v; split; try discriminate; try (intros [H|H]; discriminate);
          try (intros _; right; reflexivity); try reflexivity.
      - split; [intros _; left|]; reflexivity. }
    split.
    + rewrite <- Hnull. split; [intros [= H]; exact H | intros ->; reflexivity].
    + intros Hc. apply Hcontains in Hc. do 2 f_equal. apply Hnull. left. exact Hc.
  - split.
    { intros Hin. apply ObjectLike_attribute_plain.
      repeat (apply elem_of_cons in Hin as [-> | Hin]; [reflexivity|]).
      inversion Hin. }
    split; [intros Hin val; apply ObjectLike_attribute_own, Hin|].
    split; [|split]; reflexivity.
Qed.

(** X12.  [items()] and attribute lookup agree, except on the shadowed
    keys.  For a dictionary (distinct keys), [items()] yields one pair per
    key, in the order of the dictionary, and every key it yields is
    contained.  For a key that is no attribute of the class or of the
    instance, the value of the pair is what attribute lookup returns
    ([ObjectLike] around a nested dictionary, the value itself otherwise);
    for the keys [dictlike], [reset] and [items] attribute lookup returns
    something else, so that their values are reached through [items()]
    only.  A key that [items()] does not yield is not contained and, if it
    is no attribute either, reads as [None]. *)
Theorem ObjectLike_items_agree (dictlike : list (pystr * json))
    (Hkeys : NoDup (map fst dictlike)) :
  map fst (ObjectLike_items dictlike) = map fst dictlike /\
  (forall k v, (k, v) ∈ ObjectLike_items dictlike ->
     ObjectLike_contains (list_to_map dictlike) k = true /\
     (plain_name k = true ->
      ObjectLike_attribute (list_to_map dictlike) k = Some (Attr_value v)) /\
     (k ∈ [lit "dictlike"; lit "reset"; lit "items"] ->
      ObjectLike_attribute (list_to_map dictlike) k <> Some (Attr_value v))) /\
  (forall k, k ∉ map fst (ObjectLike_items dictlike) ->
     ObjectLike_contains (list_to_map dictlike) k = false /\
     (plain_name k = true ->
      ObjectLike_attribute (list_to_map dictlike) k = Some (Attr_value (Val JNull)))).
Proof.
  assert (Hfst : map fst (ObjectLike_items dictlike) = map fst dictlike).
  { unfold ObjectLike_items. rewrite map_map. reflexivity. }
  split; [exact Hfst|]. split.
  - intros k v Hin. unfold ObjectLike_items in Hin.
    apply list_elem_of_fmap in Hin as ([k' raw] & [= -> ->] & Hraw).
    apply (elem_of_list_to_map (M := gmap pystr)) in Hraw; [|exact Hkeys].
    cbn [fst snd]. split; [|split].
    + unfold ObjectLike_contains. apply bool_decide_eq_true_2. eexists. exact Hraw.
    + intros Hplain. rewrite (ObjectLike_attribute_plain _ _ Hplain).
      do 2 f_equal. apply ObjectLike_getattr_wrap, Hraw.
    + intros Hown. apply ObjectLike_attribute_own, Hown.
  - intros k Hk. rewrite Hfst in Hk.
    assert (Hnone : (list_to_map dictlike : gmap pystr json) !! k = None).
    { apply not_elem_of_list_to_map_1. exact Hk. }
    split.
    + unfold ObjectLike_contains. rewrite Hnone. apply bool_decide_eq_false_2, is_Some_None.
    + intros Hplain. rewrite (ObjectLike_attribute_plain _ _ Hplain).
      unfold ObjectLike_getattr. rewrite Hnone. reflexivity.
Qed.

(** The callback of a build: its [builder] is a nested dictionary, and it
    has a key [items]. *)
Lemma ObjectLike_items_agree_witness :
  let raw := [(lit "items", JInt 3);
              (lit "builder", JDict [(lit "name", JStr (lit "linux"))])] in
  ObjectLike_attribute (list_to_map raw) (lit "builder")
  = Some (Attr_value (ObjectLike [(lit "name", JStr (lit "linux"))])) /\
  ObjectLike_attribute (list_to_map raw) (lit "items") <> Some (Attr_value (Val (JInt 3))).
Proof.
  intros raw.
  assert (Hkeys : NoDup (map fst raw)).
  { apply (bool_decide_unpack _). vm_compute. exact I. }
  destruct (ObjectLike_items_agree raw Hkeys) as (_ & Hin & _).
  split.
  - apply (Hin (lit "builder") (ObjectLike [(lit "name", JStr (lit "linux"))])).
    + apply list_elem_of_further, list_elem_of_here.
    + reflexivity.
  - apply (Hin (lit "items") (Val (JInt 3))).
    + apply list_elem_of_here.
    + do 2 apply list_elem_of_further. apply list_elem_of_here.
Defined.

(** * Properties of [shorten_url] *)

Lemma str_startswith_app p rest : str_startswith (p ++ rest) p = true.
Proof. induction p as [|c p IH]; [reflexivity|]. simpl. rewrite N.eqb_refl. exact IH. Qed.

Lemma str_startswith_length s p : str_startswith s p = true -> (length p <= length s)%nat.
Proof.
  revert s. induction p as [|c p IH]; intros s H; [simpl; lia|].
  destruct s as [|c' s]; [discriminate|]. simpl in H.
  apply andb_prop in H as [_ H]. apply IH in H. simpl. lia.
Qed.

Lemma str_startswith_elem s p c : str_startswith s p = true -> c ∈ p -> c ∈ s.
Proof.
  revert s. induction p as [|c' p IH]; intros s H Hc; [inversion Hc|].
  destruct s as [|c'' s]; [discriminate|]. simpl in H.
  apply andb_prop in H as [Heq H]. apply N.eqb_eq in Heq. subst c''.
  apply elem_of_cons in Hc as [-> | Hc]; [apply list_elem_of_here|].
  apply list_elem_of_further. apply (IH s H Hc).
Qed.

Lemma str_replace_from_skip old new p rest :
  str_replace_from old new (length p) (p ++ rest) = str_replace_from old new 0 rest.
Proof. induction p as [|c p IH]; [reflexivity | exact IH]. Qed.

Lemma str_replace_from_match old new c old' rest :
  old = c :: old' ->
  str_replace_from old new 0 (old ++ rest) = new ++ str_replace_from old new 0 rest.
Proof.
  intros ->. cbn [app str_replace_from].
  pose proof (str_startswith_app (c :: old') rest) as H. cbn [app] in H. rewrite H.
  cbn [length].
  replace (S (length old') - 1)%nat with (length old') by lia.
  rewrite (str_replace_from_skip (c :: old') new old' rest). reflexivity.
Qed.

Lemma str_replace_from_absent old new c s :
  c ∈ old -> c ∉ s -> str_replace_from old new 0 s = s.
Proof.
  intros Hc. induction s as [|x s IH]; intros Hs; [reflexivity|].
  cbn [str_replace_from].
  destruct (str_startswith (x :: s) old) eqn:Hst.
  - exfalso. apply Hs. apply (str_startswith_elem _ _ _ Hst Hc).
  - rewrite IH; [reflexivity|]. intros Hin. apply Hs. apply list_elem_of_further. exact Hin.
Qed.

Lemma str_replace_from_length old new skip s :
  (length new <= length old)%nat -> (skip <= length s)%nat ->
  (length (str_replace_from old new skip s) + skip <= length s)%nat.
Proof.
  intros Hlen. revert skip. induction s as [|c s IH]; intros skip Hskip.
  - simpl in *. lia.
  - cbn [str_replace_from]. destruct skip as [|k].
    + destruct (str_startswith (c :: s) old) eqn:Hst.
      * apply str_startswith_length in Hst. cbn [length] in *.
        rewrite length_app.
        destruct (length old) as [|n] eqn:Hold.
        -- assert (length new = 0)%nat by lia.
           specialize (IH 0%nat ltac:(lia)). simpl. lia.
        -- replace (S n - 1)%nat with n by lia.
           specialize (IH n ltac:(lia)). lia.
      * specialize (IH 0%nat ltac:(lia)). cbn [length]. lia.
    + cbn [length] in *. specialize (IH k ltac:(lia)). lia.
Qed.

Lemma shorten_url_github_pull rest :
  shorten_url (pull_prefix ++ rest)
  = short_pull ++ str_replace pull_prefix short_pull rest.
Proof.
  unfold shorten_url. rewrite str_startswith_app.
  rewrite bool_decide_eq_false_2 by discriminate.
  apply (str_replace_from_match pull_prefix short_pull 104 (tl pull_prefix)).
  reflexivity.
Qed.

Lemma shorten_url_github_commit rest :
  shorten_url (commit_prefix ++ rest)
  = short_commit ++ str_replace commit_prefix short_commit rest.
Proof.
  unfold shorten_url.
  rewrite bool_decide_eq_false_2 by discriminate.
  replace (str_startswith (commit_prefix ++ rest) pull_prefix) with false by reflexivity.
  rewrite str_startswith_app.
  apply (str_replace_from_match commit_prefix short_commit 104 (tl commit_prefix)).
  reflexivity.
Qed.

(** X13.  What [shorten_url] does to the two kinds of GitHub links: the
    leading prefix becomes the short one, and [str.replace] goes on through
    the rest of the URL, so that later occurrences of the prefix are
    rewritten as well; when the rest holds no colon (a pull-request number,
    a commit hash) it is kept as it is. *)
Theorem shorten_url_github (rest : pystr) :
  shorten_url (pull_prefix ++ rest)
  = short_pull ++ str_replace pull_prefix short_pull rest /\
  shorten_url (commit_prefix ++ rest)
  = short_commit ++ str_replace commit_prefix short_commit rest /\
  (58 ∉ rest ->
   shorten_url (pull_prefix ++ rest) = short_pull ++ rest /\
   shorten_url (commit_prefix ++ rest) = short_commit ++ rest).
Proof.
  pose proof (shorten_url_github_pull rest) as Hp.
  pose proof (shorten_url_github_commit rest) as Hc.
  split; [exact Hp|]. split; [exact Hc|].
  intros Hcolon. rewrite Hp, Hc. split; f_equal.
  - apply (str_replace_from_absent pull_prefix short_pull 58); [|exact Hcolon].
    apply (bool_decide_unpack _). vm_compute. exact I.
  - apply (str_replace_from_absent commit_prefix short_commit 58); [|exact Hcolon].
    apply (bool_decide_unpack _). vm_compute. exact I.
Qed.

(** X14.  [shorten_url] deserves its name and can be applied twice: it
    never returns the empty string, the result is never longer than a
    non-empty URL, an URL that is neither empty nor starts with one of the
    two GitHub prefixes comes back unchanged, and shortening a shortened URL
    changes nothing. *)
Theorem shorten_url_shortens (url : pystr) :
  shorten_url url <> [] /\
  (url <> [] -> (length (shorten_url url) <= length url)%nat) /\
  (url <> [] -> str_startswith url pull_prefix = false ->
   str_startswith url commit_prefix = false -> shorten_url url = url) /\
  shorten_url (shorten_url url) = shorten_url url.
Proof.
  assert (Hcases :
    (url = [] /\ shorten_url url = lit "<no url>") \/
    (url <> [] /\ exists rest, url = pull_prefix ++ rest /\
       shorten_url url = short_pull ++ str_replace pull_prefix short_pull rest) \/
    (url <> [] /\ exists rest, url = commit_prefix ++ rest /\
       shorten_url url = short_commit ++ str_replace commit_prefix short_commit rest) \/
    (url <> [] /\ str_startswith url pull_prefix = false /\
     str_startswith url commit_prefix = false /\ shorten_url url = url)).
  { destruct (decide (url = [])) as [->|Hne]; [left; split; reflexivity|].
    right.
    assert (Hsplit : forall p, str_startswith url p = true -> exists rest, url = p ++ rest).
    { intros p. clear Hne. revert url. induction p as [|c p IH]; intros url H.
      - exists url. reflexivity.
      - destruct url as [|c' url]; [discriminate|]. simpl in H.
        apply andb_prop in H as [Heq H]. apply N.eqb_eq in Heq. subst c'.
        destruct (IH url H) as [rest ->]. exists rest. reflexivity. }
    destruct (str_startswith url pull_prefix) eqn:Hp.
    - left. split; [exact Hne|]. destruct (Hsplit _ Hp) as [rest ->].
      exists rest. split; [reflexivity|]. apply shorten_url_github_pull.
    - right. destruct (str_startswith url commit_prefix) eqn:Hc.
      + left. split; [exact Hne|]. destruct (Hsplit _ Hc) as [rest ->].
        exists rest. split; [reflexivity|]. apply shorten_url_github_commit.
      + right. split; [exact Hne|]. split; [reflexivity|]. split; [reflexivity|].
        unfold shorten_url. rewrite bool_decide_eq_false_2 by exact Hne.
        rewrite Hp, Hc. reflexivity. }
  destruct Hcases as [[-> Hs] | [(Hne & rest & -> & Hs) | [(Hne & rest & -> & Hs) |
                      (Hne & Hp & Hc & Hs)]]]; rewrite Hs.
  - split; [discriminate|]. split; [intros H; destruct H; reflexivity|].
    split; [intros H; destruct H; reflexivity|]. reflexivity.
  - split; [discriminate|]. split.
    { intros _. rewrite !length_app.
      pose proof (str_replace_from_length pull_prefix short_pull 0 rest) as Hl.
      change (str_replace pull_prefix short_pull rest)
        with (str_replace_from pull_prefix short_pull 0 rest).
      change (length short_pull) with 18%nat in *.
      change (length pull_prefix) with 44%nat in *.
      lia. }
    split; [intros _ H; discriminate H|].
    unfold shorten_url. rewrite bool_decide_eq_false_2 by discriminate. reflexivity.
  - split; [discriminate|]. split.
    { intros _. rewrite !length_app.
      pose proof (str_replace_from_length commit_prefix short_commit 0 rest) as Hl.
      change (str_replace commit_prefix short_commit rest)
        with (str_replace_from commit_prefix short_commit 0 rest).
      change (length short_commit) with 17%nat in *.
      change (length commit_prefix) with 46%nat in *.
      lia. }
    split; [intros _ _ H; discriminate H|].
    unfold shorten_url. rewrite bool_decide_eq_false_2 by discriminate. reflexivity.
  - split; [exact Hne|]. split; [intros _; lia|]. split; [reflexivity|].
    unfold shorten_url. rewrite bool_decide_eq_false_2 by exact Hne.
    rewrite Hp, Hc. reflexivity.
Qed.

(** * Properties of the listeners *)

(** X15.  The two GitHub listeners only ever append to the worker's queue,
    and at most one trigger per event.  The pull-request listener passes the
    author's trust on as it is and enqueues nothing for a repository that is
    not maintained; the comment listener enqueues nothing for a comment of
    an author who is not trusted, whatever the comment says, and every
    trigger it enqueues is trusted, made on behalf of the commenter, for a
    maintained repository. *)
Theorem github_listeners_gate lcfg (str_lower : pystr -> pystr) :
  (forall (evt : GHPullRequest) (q : list BuildTrigger),
     exists added,
       PullRequestListener_push_event lcfg evt q = q ++ added /\
       (length added <= 1)%nat /\
       Forall (fun t => trusted t = ghpr_safe_author evt /\
                        in_behalf_of t = ghpr_author evt /\
                        repo t = ghpr_repo evt /\ repo t ∈ maintain lcfg /\
                        pr_id t = ghpr_id evt) added /\
       (ghpr_repo evt ∉ maintain lcfg -> added = [])) /\
  (forall (evt : GHIssueComment) (q : list BuildTrigger),
     exists added,
       ManualPullRequestListener_push_event lcfg str_lower evt q = q ++ added /\
       (length added <= 1)%nat /\
       Forall (fun t => trusted t = true /\
                        in_behalf_of t = ghic_author evt /\
                        repo t = ghic_repo evt /\ repo t ∈ maintain lcfg /\
                        pr_id t = ghic_id evt) added /\
       (ghic_safe_author evt = false -> added = [])).
Proof.
  split.
  - intros evt q. unfold PullRequestListener_push_event, PullRequestBuilder_push.
    destruct (_ || _).
    + destruct (bool_decide (ghpr_repo evt ∈ maintain lcfg)) eqn:Hrepo.
      * apply bool_decide_eq_true_1 in Hrepo. eexists. split; [reflexivity|].
        split; [simpl; lia|]. split; [repeat constructor; assumption|].
        intros Hnot. destruct (Hnot Hrepo).
      * exists []. rewrite app_nil_r. split; [reflexivity|]. split; [simpl; lia|].
        split; [constructor | reflexivity].
    + exists []. rewrite app_nil_r. split; [reflexivity|]. split; [simpl; lia|].
      split; [constructor | reflexivity].
  - intros evt q. unfold ManualPullRequestListener_push_event, PullRequestBuilder_push.
    assert (Hnone : exists added : list BuildTrigger,
              q = q ++ added /\ (length added <= 1)%nat /\
              Forall (fun t => trusted t = true /\
                        in_behalf_of t = ghic_author evt /\
                        repo t = ghic_repo evt /\ repo t ∈ maintain lcfg /\
                        pr_id t = ghic_id evt) added /\
              (ghic_safe_author evt = false -> added = [])).
    { exists []. rewrite app_nil_r. split; [reflexivity|]. split; [simpl; lia|].
      split; [constructor | reflexivity]. }
    destruct (ghic_safe_author evt) eqn:Hsafe; cbn [negb]; [|exact Hnone].
    destruct (str_contains _ _); cbn [negb]; [|exact Hnone].
    destruct (bool_decide (ghic_repo evt ∈ maintain lcfg)) eqn:Hrepo; cbn [negb];
      [|exact Hnone].
    destruct (bool_decide (ghic_action evt = lit "created")); cbn [negb]; [|exact Hnone].
    apply bool_decide_eq_true_1 in Hrepo. eexists. split; [reflexivity|].
    split; [simpl; lia|]. split; [repeat constructor; assumption | discriminate].
Qed.

(** X16.  The IRC listener enqueues a trigger only for a direct message of
    an operator (mode [o]) in which the pattern finds a number that [int]
    accepts; it then appends exactly one trigger, which is trusted, made on
    behalf of the sender and for the configured repository.  In every other
    case the queue stays as it is; a [ValueError] of [int] is swallowed. *)
Theorem irc_listener_gate lcfg (search_rebuild : pystr -> option pystr)
    (int_of_str : pystr -> res Z) (evt : IRCMessage) (q : list BuildTrigger) :
  match IRCRebuildListener_push_event lcfg search_rebuild int_of_str evt q with
  | Return q' =>
      exists added,
        q' = q ++ added /\ (length added <= 1)%nat /\
        Forall (fun t => trusted t = true /\ in_behalf_of t = irc_who evt /\
                         repo t = rebuild_repo lcfg /\
                         irc_direct evt = true /\
                         str_contains (irc_modes evt) (lit "o") = true /\
                         exists digits, search_rebuild (irc_what evt) = Some digits /\
                                        int_of_str digits = Return (pr_id t)) added /\
        (added = [] \/ exists t, added = [t])
  | Raise e =>
      e <> ValueError /\
      exists digits, search_rebuild (irc_what evt) = Some digits /\
                     int_of_str digits = Raise e
  end.
Proof.
  unfold IRCRebuildListener_push_event, PullRequestBuilder_push.
  assert (Hnone : exists added : list BuildTrigger,
            q = q ++ added /\ (length added <= 1)%nat /\
            Forall (fun t => trusted t = true /\ in_behalf_of t = irc_who evt /\
                         repo t = rebuild_repo lcfg /\
                         irc_direct evt = true /\
                         str_contains (irc_modes evt) (lit "o") = true /\
                         exists digits, search_rebuild (irc_what evt) = Some digits /\
                                        int_of_str digits = Return (pr_id t)) added /\
            (added = [] \/ exists t, added = [t])).
  { exists []. rewrite app_nil_r. split; [reflexivity|]. split; [simpl; lia|].
    split; [constructor | left; reflexivity]. }
  destruct (irc_direct evt) eqn:Hdirect; cbn [negb orb]; [|exact Hnone].
  destruct (str_contains (irc_modes evt) (lit "o")) eqn:Hop; cbn [negb]; [|exact Hnone].
  destruct (search_rebuild (irc_what evt)) as [digits|] eqn:Hsearch; [|exact Hnone].
  destruct (int_of_str digits) as [n|e] eqn:Hint.
  - eexists. split; [reflexivity|]. split; [simpl; lia|]. split.
    + repeat constructor. exists digits. split; [reflexivity | exact Hint].
    + right. eexists. reflexivity.
  - destruct e; try (split; [discriminate | exists digits; split; [reflexivity | exact Hint]]).
    exact Hnone.
Qed.

(** X17.  From the event to the status: a pull request opened or
    synchronized by an author who is not trusted, in a maintained
    repository, puts one trigger in the empty queue, and the worker, once
    the host has answered, turns it into exactly one event that names the
    author ("PR not built because <author> is not auto-trusted."), touches
    no file and then waits on the empty queue. *)
Theorem untrusted_pull_request_is_reported env lcfg (evt : GHPullRequest)
    (pr : PullRequestJson) (w : World)
    (Haction : ghpr_action evt = lit "opened" \/ ghpr_action evt = lit "synchronize")
    (Hrepo : ghpr_repo evt ∈ maintain lcfg)
    (Hunsafe : ghpr_safe_author evt = false)
    (Hfetch : requests_get_json env (pull_request_url (ghpr_repo evt) (ghpr_id evt))
              = Return pr) :
  exists t w',
    PullRequestListener_push_event lcfg evt [] = [t] /\
    PullRequestBuilder_run env (PullRequestListener_push_event lcfg evt []) w
    = (Blocked, [], w') /\
    dispatched (trace w') = dispatched (trace w) ++ [(lit "prbuilder", untrusted_event t pr)] /\
    (exists e, untrusted_event t pr = EvBuildStatus e /\
       bs_description e
       = lit "PR not built because " ++ ghpr_author evt ++ lit " is not auto-trusted." /\
       bs_success e = false /\ bs_pending e = false) /\
    files w' = files w /\ syscalls (trace w') = syscalls (trace w).
Proof.
  assert (Hpush : PullRequestListener_push_event lcfg evt []
                  = [{| in_behalf_of := ghpr_author evt; trusted := ghpr_safe_author evt;
                        repo := ghpr_repo evt; pr_id := ghpr_id evt |}]).
  { unfold PullRequestListener_push_event, PullRequestBuilder_push.
    rewrite (bool_decide_eq_true_2 _ Hrepo).
    destruct Haction as [-> | ->]; reflexivity. }
  eexists. eexists. split; [exact Hpush|]. rewrite Hpush.
  cbn [PullRequestBuilder_run].
  rewrite (step_untrusted env
             {| in_behalf_of := ghpr_author evt; trusted := ghpr_safe_author evt;
                repo := ghpr_repo evt; pr_id := ghpr_id evt |} pr Hfetch w Hunsafe).
  split; [reflexivity|].
  rewrite trace_emit_all, files_emit_all, dispatched_app, syscalls_app.
  split; [f_equal|]. split; [eexists; repeat split|].
  split; [reflexivity | apply app_nil_r].
Qed.

Lemma untrusted_pull_request_is_reported_witness :
  exists t w',
    PullRequestBuilder_run (sample_env (Return (sample_pull (Some true))))
      (PullRequestListener_push_event
         {| maintain := [lit "owner/name"]; rebuild_command := lit "@bot rebuild";
            rebuild_repo := lit "owner/name" |}
         {| ghpr_action := lit "opened"; ghpr_repo := lit "owner/name";
            ghpr_author := lit "mallory"; ghpr_safe_author := false; ghpr_id := 7 |} [])
      empty_world
    = (Blocked, [], w') /\
    dispatched (trace w') = [(lit "prbuilder", untrusted_event t (sample_pull (Some true)))].
Proof.
  destruct (untrusted_pull_request_is_reported
              (sample_env (Return (sample_pull (Some true))))
              {| maintain := [lit "owner/name"]; rebuild_command := lit "@bot rebuild";
                 rebuild_repo := lit "owner/name" |}
              {| ghpr_action := lit "opened"; ghpr_repo := lit "owner/name";
                 ghpr_author := lit "mallory"; ghpr_safe_author := false; ghpr_id := 7 |}
              (sample_pull (Some true)) empty_world
              (or_introl eq_refl) (list_elem_of_here _ _) eq_refl eq_refl)
    as (t & w' & _ & Hrun & Hd & _).
  exists t, w'. split; [exact Hrun | exact Hd].
Defined.

(** X18.  From the comment to the job file: when a trusted user writes the
    rebuild command under a pull request of a maintained repository, the
    host answers with a pull request that is not known to be unmergeable,
    and the operating system refuses nothing and loses nothing, the worker
    leaves the build request under the final name in [new/], nothing under
    the temporary name, and has announced the aggregate status and one
    pending status per builder.  The request is made on behalf of the
    commenter, not of the author of the pull request. *)
Theorem rebuild_comment_submits_job env lcfg (str_lower : pystr -> pystr)
    (evt : GHIssueComment) (pr : PullRequestJson) (w : World)
    (Hsafe : ghic_safe_author evt = true)
    (Hcmd : str_contains (str_lower (ghic_body evt)) (str_lower (rebuild_command lcfg)) = true)
    (Hrepo : ghic_repo evt ∈ maintain lcfg)
    (Haction : ghic_action evt = lit "created")
    (Hfetch : requests_get_json env (pull_request_url (ghic_repo evt) (ghic_id evt))
              = Return pr)
    (Hmergeable : mergeable pr <> Some false)
    (Hopen : forall p, may_open_wb env p = true)
    (Hwrite : forall p data, may_write env p data = true)
    (Hstored : forall p data, (length data <= stored env p data)%nat)
    (Hrename : forall a b, may_rename env a b = true) :
  exists t req w',
    ManualPullRequestListener_push_event lcfg str_lower evt [] = [t] /\
    make_build_request (cfg env) (ghic_repo evt) (ghic_id evt)
      (str_int (ghic_id evt) ++ lit "-" ++ take 6 (head_sha pr))
      (base_sha pr) (head_sha pr)
      (lit "Central (on behalf of: " ++ ghic_author evt ++ lit ")")
      (lit "Auto build for PR #" ++ str_int (ghic_id evt) ++ lit " ("
         ++ head_sha pr ++ lit ").") = Return req /\
    PullRequestBuilder_run env [t] w = (Blocked, [], w') /\
    files w' !! final_path env w = Some req /\
    files w' !! tmp_path env w = None /\
    dispatched (trace w')
    = dispatched (trace w)
        ++ (lit "prbuilder", aggregate_event t pr)
           :: map (fun b => (lit "prbuilder", pending_event env t pr b))
                (pr_builders (cfg env)).
Proof.
  set (t := {| in_behalf_of := ghic_author evt; trusted := ghic_safe_author evt;
               repo := ghic_repo evt; pr_id := ghic_id evt |}).
  assert (Hpush : ManualPullRequestListener_push_event lcfg str_lower evt [] = [t]).
  { unfold ManualPullRequestListener_push_event, PullRequestBuilder_push.
    rewrite Hsafe, Hcmd, (bool_decide_eq_true_2 _ Hrepo), (bool_decide_eq_true_2 _ Haction).
    subst t. rewrite Hsafe. reflexivity. }
  destruct (step_proceeds env t pr Hfetch w Hsafe Hmergeable) as (req & Hreq & Hstep).
  set (w0 := emit_all (preamble t pr ++ Dispatch (lit "prbuilder") (aggregate_event t pr)
                     :: map (fun b => Dispatch (lit "prbuilder") (pending_event env t pr b))
                          (pr_builders (cfg env))) w) in *.
  assert (Hd : drawn w0 = drawn w) by apply drawn_emit_all.
  assert (Htmp : tmp_path env w0 = tmp_path env w) by (unfold tmp_path; rewrite Hd; reflexivity).
  assert (Hfin : final_path env w0 = final_path env w)
    by (unfold final_path; rewrite Hd; reflexivity).
  destruct (send_build_request_cases env req w0)
    as [[Hno _] | [(_ & Hno & _) | [(_ & _ & Hno & _) | (_ & _ & _ & Hsend)]]].
  - rewrite Hopen in Hno. discriminate Hno.
  - rewrite Hwrite in Hno. discriminate Hno.
  - rewrite Hrename in Hno. discriminate Hno.
  - exists t, req. eexists. split; [exact Hpush|]. split; [exact Hreq|].
    rewrite (kept_all env w0 req (Hstored _ _)) in Hsend.
    cbn [PullRequestBuilder_run]. rewrite Hstep, Hsend. split; [reflexivity|].
    cbn [files trace]. rewrite Htmp, Hfin. split; [apply lookup_insert_eq|]. split.
    + rewrite lookup_insert_ne by (intros Heq; exact (tmp_path_neq_final_path env w (eq_sym Heq))).
      apply lookup_delete_eq.
    + rewrite !dispatched_app. cbn [dispatched]. rewrite !app_nil_r.
      subst w0. rewrite trace_emit_all, !dispatched_app. cbn [preamble dispatched app].
      rewrite dispatched_map_Dispatch. reflexivity.
Qed.

Lemma rebuild_comment_submits_job_witness :
  exists t req w',
    PullRequestBuilder_run (sample_env (Return (sample_pull None))) [t] empty_world
    = (Blocked, [], w') /\
    in_behalf_of t = lit "carol" /\
    files w' !! final_path (sample_env (Return (sample_pull None))) empty_world = Some req.
Proof.
  destruct (rebuild_comment_submits_job
              (sample_env (Return (sample_pull None)))
              {| maintain := [lit "owner/name"]; rebuild_command := lit "@bot rebuild";
                 rebuild_repo := lit "owner/name" |}
              (fun s => s)
              {| ghic_action := lit "created"; ghic_repo := lit "owner/name";
                 ghic_author := lit "carol"; ghic_safe_author := true; ghic_id := 7;
                 ghic_body := lit "please @bot rebuild this" |}
              (sample_pull None) empty_world
              eq_refl eq_refl (list_elem_of_here _ _) eq_refl eq_refl
              ltac:(discriminate) (fun _ => eq_refl) (fun _ _ => eq_refl)
              (fun _ _ => le_n _) (fun _ _ => eq_refl))
    as (t & req & w' & Hpush & _ & Hrun & Hfile & _).
  exists t, req, w'. split; [exact Hrun|]. split; [|exact Hfile].
  injection Hpush as <-. reflexivity.
Defined.

(** * The supervised dispatch worker and the host *)

Lemma http_requests_emit e w :
  http_requests (trace (emit e w))
  = http_requests (trace w) ++ http_requests [e].
Proof. cbn [emit trace]. apply http_requests_app. Qed.

Lemma PullRequestBuilder_run_requests env (q : list BuildTrigger) (w : World) :
  exists taken,
    q = taken ++ snd (fst (PullRequestBuilder_run env q w)) /\
    http_requests (trace (snd (PullRequestBuilder_run env q w)))
    = http_requests (trace w)
        ++ map (fun t => pull_request_url (repo t) (pr_id t)) taken.
Proof.
  revert w. induction q as [|t q IH]; intros w.
  - exists []. split; [reflexivity|]. cbn. rewrite app_nil_r. reflexivity.
  - cbn [PullRequestBuilder_run].
    pose proof (PullRequestBuilder_step_requests env t w) as Hreq.
    destruct (PullRequestBuilder_step env t w) as [[[]|e] w1]; cbn [snd] in Hreq.
    + destruct (IH w1) as (taken & Hq & Hr). exists (t :: taken).
      split; [cbn [app]; f_equal; exact Hq|].
      rewrite Hr, Hreq, <- app_assoc. reflexivity.
    + exists [t]. split; [reflexivity|]. cbn [snd fst map]. exact Hreq.
Qed.

(** X19.  The supervised worker asks the host exactly once for every
    trigger, in the order of the queue: as long as the host fails only with
    [Exception]s, after more rounds than there are triggers the requests
    sent are those of the queued triggers, one each, whatever failed on the
    way.  A trigger whose processing raised is never asked for again. *)
Theorem supervised_worker_fetches_once env name (fuel : nat) (q : list BuildTrigger)
    (w : World)
    (Hhost : forall url e, requests_get_json env url = Raise e -> is_Exception e = true)
    (Hfuel : (length q < fuel)%nat) :
  http_requests
    (trace (snd (DaemonThread_run (PullRequestBuilder_run env) name fuel q w)))
  = http_requests (trace w) ++ map (fun t => pull_request_url (repo t) (pr_id t)) q.
Proof.
  revert q w Hfuel. induction fuel as [|fuel IH]; intros q w Hfuel; [lia|].
  cbn [DaemonThread_run].
  set (w0 := emit (Stdout (lit "Running " ++ name)) w).
  assert (Hw0 : http_requests (trace w0) = http_requests (trace w)).
  { subst w0. rewrite http_requests_emit. apply app_nil_r. }
  destruct (PullRequestBuilder_run_requests env q w0) as (taken & Hq & Hr).
  destruct (PullRequestBuilder_run_ends env q w0)
    as [(w' & H) | (e & q' & w' & t' & w1 & H & Hlen & Hst)];
    rewrite H in *; cbn [fst snd] in *.
  - rewrite app_nil_r in Hq. subst taken. rewrite Hr, Hw0. reflexivity.
  - assert (He : is_Exception e = true).
    { destruct (PullRequestBuilder_step_raises env t' w1 e w' Hst) as [Hf | ->];
        [exact (Hhost _ _ Hf) | reflexivity]. }
    rewrite He, IH by lia.
    rewrite !http_requests_emit. cbn [http_requests]. rewrite !app_nil_r.
    rewrite Hr, Hw0, <- app_assoc, <- map_app, <- Hq. reflexivity.
Qed.

(** Two triggers, and a host that cannot be reached. *)
Lemma supervised_worker_fetches_once_witness :
  http_requests
    (trace (snd (DaemonThread_run
                   (PullRequestBuilder_run (sample_env (Raise RequestException)))
                   (lit "run") 3 [sample_trigger true; sample_trigger false] empty_world)))
  = [pull_request_url (lit "owner/name") 42; pull_request_url (lit "owner/name") 42].
Proof.
  apply (supervised_worker_fetches_once (sample_env (Raise RequestException)) (lit "run") 3
           [sample_trigger true; sample_trigger false] empty_world).
  - intros url e He. injection He as <-. reflexivity.
  - simpl. lia.
Defined.
